(** * Autoswarm agent: container translation, reconciliation and the
      control-plane cache, embedded from the Python sources

    Sources embedded: [src/utils.py], [src/config.py],
    [src/docker_manager.py], [src/reconciler.py], [src/dokploy_client.py],
    [src/event_monitor.py].

    Conventions of the embedding
    - A Python [str] is a [string]; a character is its code point, restricted
      to the range 0..255 that [ascii] offers.  [str.isalnum], [str.lower]
      and the white space accepted by [int()] are written out for that whole
      range as CPython 3 defines them.
    - A dictionary with known keys is a record whose fields are [option]s:
      [None] is an absent key.  Values have the types the engine and the
      control plane give them (strings, integers, lists, nested records).
    - A dictionary whose iteration order the code relies on is an
      association list in insertion order; a dictionary that is only looked
      up and merged is a [gmap]; a Python [set] is a [gset].
    - A function that can raise returns [result]. *)

From Stdlib Require Import Ascii String ZArith Lia Bool.
From stdpp Require Import base option list gmap strings sorting.

Local Open Scope string_scope.

(** ** Exceptions *)

Inductive exn : Type :=
  | ValueError (msg : string)
  | TypeError (msg : string)
  | AttributeError (msg : string)
  | RuntimeError (msg : string)
  | RequestException (msg : string)
  | APIError (msg : string).

Inductive result (A : Type) : Type :=
  | Ok (a : A)
  | Raise (e : exn).
Arguments Ok {A} a.
Arguments Raise {A} e.

Global Instance result_ret : MRet result := fun A a => Ok a.

Global Instance result_bind : MBind result := fun A B k r =>
  match r with
  | Ok a => k a
  | Raise e => Raise e
  end.

Definition is_ok {A : Type} (r : result A) : bool :=
  match r with Ok _ => true | Raise _ => false end.

(** ** Python string primitives *)

Module PyStr.

Definition code (c : ascii) : N := N_of_ascii c.

Definition in_range (lo hi : N) (c : ascii) : bool :=
  ((lo <=? code c) && (code c <=? hi))%N.

Definition is_digit (c : ascii) : bool := in_range 48 57 c.
Definition is_upper_az (c : ascii) : bool := in_range 65 90 c.
Definition is_lower_az (c : ascii) : bool := in_range 97 122 c.
Definition is_ascii (c : ascii) : bool := (code c <? 128)%N.

(** The alphanumeric code points above 127: the ordinal indicators, the
    superscript digits, the micro sign, the vulgar fractions and the
    accented letters (the multiplication and division signs excluded). *)
Definition is_latin1_alnum (c : ascii) : bool :=
  let n := code c in
  ((n =? 170) || (n =? 178) || (n =? 179) || (n =? 181) || (n =? 185)
   || (n =? 186) || (n =? 188) || (n =? 189) || (n =? 190))%N
  || in_range 192 214 c || in_range 216 246 c || in_range 248 255 c.

(** [str.isalnum] on one character. *)
Definition isalnum (c : ascii) : bool :=
  is_digit c || is_upper_az c || is_lower_az c || is_latin1_alnum c.

(** [str.lower] on one character. *)
Definition lower (c : ascii) : ascii :=
  if is_upper_az c || in_range 192 214 c || in_range 216 222 c
  then ascii_of_N (code c + 32)
  else c.

Definition is_empty (s : string) : bool :=
  match s with EmptyString => true | String _ _ => false end.

Fixpoint map_chars (f : ascii -> ascii) (s : string) : string :=
  match s with
  | EmptyString => EmptyString
  | String c s' => String (f c) (map_chars f s')
  end.

Fixpoint all_chars (p : ascii -> bool) (s : string) : bool :=
  match s with
  | EmptyString => true
  | String c s' => p c && all_chars p s'
  end.

Fixpoint any_char (p : ascii -> bool) (s : string) : bool :=
  match s with
  | EmptyString => false
  | String c s' => p c || any_char p s'
  end.

Definition first_char (s : string) : option ascii :=
  match s with EmptyString => None | String c _ => Some c end.

Fixpoint last_char (s : string) : option ascii :=
  match s with
  | EmptyString => None
  | String c EmptyString => Some c
  | String _ s' => last_char s'
  end.

(** [s.lstrip(c)] for a one-character argument. *)
Fixpoint lstrip (c : ascii) (s : string) : string :=
  match s with
  | EmptyString => EmptyString
  | String a s' => if Ascii.eqb a c then lstrip c s' else s
  end.

(** [s.rstrip(c)] for a one-character argument. *)
Fixpoint rstrip (c : ascii) (s : string) : string :=
  match s with
  | EmptyString => EmptyString
  | String a s' =>
      match rstrip c s' with
      | EmptyString =>
        if Ascii.eqb a c then EmptyString else String a EmptyString
      | r => String a r
      end
  end.

(** [s.strip(c)] for a one-character argument. *)
Definition strip (c : ascii) (s : string) : string := rstrip c (lstrip c s).

(** [s[:n]]. *)
Fixpoint slice_to (n : nat) (s : string) : string :=
  match n, s with
  | S n', String c s' => String c (slice_to n' s')
  | _, _ => EmptyString
  end.

(** [s.startswith(p)]. *)
Fixpoint startswith (p s : string) : bool :=
  match p, s with
  | EmptyString, _ => true
  | String a p', String b s' => Ascii.eqb a b && startswith p' s'
  | String _ _, EmptyString => false
  end.

(** [s.endswith(p)]. *)
Definition endswith (p s : string) : bool :=
  startswith (String.rev p) (String.rev s).

(** [p in s]. *)
Fixpoint contains (p s : string) : bool :=
  startswith p s ||
  match s with
  | EmptyString => false
  | String _ s' => contains p s'
  end.

(** [s.split(c)] for a one-character separator: never empty. *)
Fixpoint split (c : ascii) (s : string) : list string :=
  match s with
  | EmptyString => [EmptyString]
  | String a s' =>
      if Ascii.eqb a c then EmptyString :: split c s'
      else match split c s' with
           | [] => [String a EmptyString]
           | w :: ws => String a w :: ws
           end
  end.

(** Truthiness of an optional string: absent and empty are falsy. *)
Definition truthy (o : option string) : bool :=
  match o with Some s => negb (is_empty s) | None => false end.

(** [o or d]. *)
Definition or_else (o : option string) (d : string) : string :=
  match o with
  | Some s => if is_empty s then d else s
  | None => d
  end.

End PyStr.

(** ** [config.py] *)

Definition IGNORED_LABEL : string := "autoswarm.ignore".
Definition MANAGED_LABEL : string := "autoswarm.managed".

(** The ingress overlay name, [AUTOSWARM_TRAEFIK_NETWORK] with its default.
    The environment is read once at import time; the default is used. *)
Definition TRAEFIK_NETWORK_NAME : string := "traefik-public".

(** ** [int(s)] on a string

    White space is stripped on both sides, one sign is allowed, and the
    digits may be grouped by single underscores. *)

Module PyInt.
Import PyStr.

Definition is_space (c : ascii) : bool :=
  let n := code c in
  in_range 9 13 c || (n =? 32)%N || (n =? 133)%N || (n =? 160)%N.

Fixpoint lstrip_space (s : string) : string :=
  match s with
  | EmptyString => EmptyString
  | String a s' => if is_space a then lstrip_space s' else s
  end.

Fixpoint rstrip_space (s : string) : string :=
  match s with
  | EmptyString => EmptyString
  | String a s' =>
      match rstrip_space s' with
      | EmptyString => if is_space a then EmptyString else String a EmptyString
      | r => String a r
      end
  end.

Definition digit_value (c : ascii) : Z := Z.of_N (code c) - 48.

(** [digits acc prev_digit s]: reads digits and single underscores between
    digits; [prev_digit] tells whether the previous character was a
    digit. *)
Fixpoint digits (acc : Z) (prev_digit : bool) (s : string) : option Z :=
  match s with
  | EmptyString => if prev_digit then Some acc else None
  | String c s' =>
      if is_digit c then digits (10 * acc + digit_value c) true s'
      else if Ascii.eqb c "_" && prev_digit
           then match s' with
                | String d _ => if is_digit d then digits acc false s' else None
                | EmptyString => None
                end
           else None
  end.

Definition parse (s : string) : option Z :=
  match rstrip_space (lstrip_space s) with
  | String "+" r => digits 0 false r
  | String "-" r => Z.opp <$> digits 0 false r
  | r => digits 0 false r
  end.

Definition int (s : string) : result Z :=
  match parse s with
  | Some z => Ok z
  | None => Raise (ValueError "invalid literal for int() with base 10")
  end.

End PyInt.

(** ** Container attributes, as [container.attrs] gives them *)

Record mount := {
  m_Destination : option string;
  m_Source : option string;
  m_Type : option string;
  m_RW : option bool;
  m_Propagation : option string
}.

Record binding := {
  HostIp : option string;
  HostPort : option string
}.

Record restart_policy := {
  rp_Name : option string;
  MaximumRetryCount : option Z
}.

Record host_config := {
  RestartPolicy : option restart_policy;
  (** keyed by ["<port>/<proto>"], in the dictionary's order *)
  PortBindings : option (list (string * option (list binding)))
}.

Record config := {
  Image : option string;
  Env : option (list string);
  User : option string;
  WorkingDir : option string;
  Entrypoint : option (list string);
  Cmd : option (list string);
  Tty : option bool;
  c_Labels : option (gmap string string)
}.

Record container_attrs := {
  Name : option string;
  Id : option string;
  Config : option config;
  HostConfig : option host_config;
  (** the keys of [NetworkSettings.Networks], in the dictionary's order *)
  Networks : option (list string);
  Mounts : option (list mount)
}.

Definition empty_config : config :=
  {| Image := None; Env := None; User := None; WorkingDir := None;
     Entrypoint := None; Cmd := None; Tty := None; c_Labels := None |}.

Definition empty_host_config : host_config :=
  {| RestartPolicy := None; PortBindings := None |}.

Definition empty_restart_policy : restart_policy :=
  {| rp_Name := None; MaximumRetryCount := None |}.

(** The empty dictionary [{}]. *)
Definition empty_attrs : container_attrs :=
  {| Name := None; Id := None; Config := None; HostConfig := None;
     Networks := None; Mounts := None |}.

(** ** Service specification built by the translator *)

Record mount_spec := {
  ms_Target : string;
  ms_Source : string;
  ms_Type : option string;
  ms_ReadOnly : bool;
  (** [BindOptions.Propagation], present on bind mounts only *)
  ms_BindOptions : option string
}.

Record port_spec := {
  Protocol : string;
  TargetPort : Z;
  PublishedPort : Z;
  PublishMode : string
}.

Record network_attachment := {
  Target : option string;
  Aliases : option (list string)
}.

(** [ContainerSpec] after the empty values were dropped: [None] is a key
    that is not in the dictionary. *)
Record container_spec := {
  cs_Image : option string;
  cs_Env : option (list string);
  cs_User : option string;
  cs_Dir : option string;
  cs_Command : option (list string);
  cs_Args : option (list string);
  cs_Mounts : option (list mount_spec);
  cs_TTY : option bool
}.

Record restart_spec := {
  Condition : string;
  MaxAttempts : option Z
}.

Record placement := { Constraints : list string }.

Record task_template := {
  ContainerSpec : container_spec;
  tt_RestartPolicy : restart_spec;
  Placement : option placement
}.

Record service_spec := {
  s_Name : string;
  TaskTemplate : task_template;
  (** [Mode.Replicated.Replicas] *)
  Replicas : Z;
  s_Labels : gmap string string;
  s_Networks : option (list network_attachment);
  (** [EndpointSpec.Ports] *)
  EndpointSpec : option (list port_spec)
}.

(** ** [utils.py] *)

(** One step of the sanitising loop of [derive_service_name]. *)
Definition sanitize_char (c : ascii) : ascii :=
  if PyStr.isalnum c then PyStr.lower c
  else if Ascii.eqb c "-" || Ascii.eqb c "_" then c
  else "-"%char.

(** [raw_name] after the fallback to the identifier. *)
Definition raw_name (container_attrs : container_attrs) : string :=
  let raw_name :=
    PyStr.lstrip "/" (default EmptyString (Name container_attrs)) in
  if PyStr.is_empty raw_name
  then PyStr.slice_to 12 (default EmptyString (Id container_attrs))
  else raw_name.

Definition derive_service_name (container_attrs : container_attrs) : string :=
  let sanitized := PyStr.map_chars sanitize_char (raw_name container_attrs) in
  let name := PyStr.strip "-" sanitized in
  if PyStr.is_empty name
  then "autoswarm-"
       +:+ PyStr.slice_to 8 (default EmptyString (Id container_attrs))
  else name.

Definition is_swarm_container (labels : option (gmap string string)) : bool :=
  match labels with
  | None => false
  | Some labels =>
      if decide (labels = ∅) then false
      else
        let swarm_keys :=
          ["com.docker.swarm.service.name"; "com.docker.swarm.task";
           "com.docker.compose.project"; MANAGED_LABEL] in
        existsb (fun key => bool_decide (is_Some (labels !! key))) swarm_keys
  end.

Definition should_ignore (labels : option (gmap string string)) : bool :=
  match labels with
  | None => false
  | Some labels =>
      if decide (labels = ∅) then false
      else
        String.eqb
          (PyStr.map_chars PyStr.lower
             (default "false" (labels !! IGNORED_LABEL)))
          "true"
  end.

(** ** [docker_manager.py] *)

(** A network as [client.networks.list()] reports it. *)
Record docker_net := {
  net_name : string;
  net_id : string;
  net_Driver : option string
}.

(** The fields of [DockerManager] the translation reads, with the answer of
    the engine to [networks.list()]. *)
Record DockerManager := {
  networks_list : list docker_net;
  local_node_id : string;
  traefik_network_id : string
}.

(** [{net.name: net for net in self.client.networks.list()}]: a later
    network of the same name replaces an earlier one. *)
Definition existing_networks (self : DockerManager) : gmap string docker_net :=
  foldl (fun acc net => <[net_name net := net]> acc) ∅ (networks_list self).

(** The set [overlay_names].  Python iterates a set in an order that the
    language leaves open; [elements] stands for that order. *)
Definition overlay_names (container_attrs : container_attrs) : gset string :=
  let attached :=
    filter (fun net_name => net_name ∉ ["bridge"; "host"; "none"])
           (default [] (Networks container_attrs)) in
  let names : gset string := list_to_set attached in
  if PyStr.is_empty TRAEFIK_NETWORK_NAME then names
  else names ∪ {[TRAEFIK_NETWORK_NAME]}.

Definition collect_networks (self : DockerManager)
    (container_attrs : container_attrs) : list network_attachment :=
  let existing := existing_networks self in
  omap (fun name =>
          match existing !! name with
          | None => None
          | Some docker_net =>
              if decide (net_Driver docker_net = Some "overlay")
              then Some {| Target := Some (net_id docker_net);
                           Aliases := None |}
              else None
          end)
       (elements (overlay_names container_attrs)).

Definition translate_mount (mount : mount) : option mount_spec :=
  match m_Destination mount, m_Source mount with
  | Some target, Some source =>
      if PyStr.is_empty target || PyStr.is_empty source then None
      else
        let mount_type := m_Type mount in
        Some {| ms_Target := target;
                ms_Source := source;
                ms_Type := mount_type;
                ms_ReadOnly := negb (default true (m_RW mount));
                ms_BindOptions :=
                  if decide (mount_type = Some "bind")
                  then Some (default "rprivate" (m_Propagation mount))
                  else None |}
  | _, _ => None
  end.

Definition collect_mounts (container_attrs : container_attrs)
    : list mount_spec :=
  omap translate_mount (default [] (Mounts container_attrs)).

(** The inner loop of [collect_ports], over the bindings of one port. *)
Fixpoint collect_bindings (proto : string) (target_port : Z)
    (bindings : list binding) : result (list port_spec) :=
  match bindings with
  | [] => Ok []
  | binding :: rest =>
      if PyStr.truthy (HostPort binding) then
        let publish_mode :=
          if PyStr.truthy (HostIp binding)
             && negb (String.eqb (default EmptyString (HostIp binding))
                                 "0.0.0.0")
          then "host" else "ingress" in
        published ← PyInt.int (default EmptyString (HostPort binding));
        ports ← collect_bindings proto target_port rest;
        Ok ({| Protocol := proto; TargetPort := target_port;
               PublishedPort := published; PublishMode := publish_mode |}
            :: ports)
      else collect_bindings proto target_port rest
  end.

(** [port_part, proto = container_port_proto.split("/")]: unpacking needs
    exactly two parts. *)
Definition unpack_port_proto (container_port_proto : string)
    : result (string * string) :=
  match PyStr.split "/" container_port_proto with
  | [port_part; proto] => Ok (port_part, proto)
  | [] | [_] => Raise (ValueError "not enough values to unpack")
  | _ => Raise (ValueError "too many values to unpack")
  end.

(** The outer loop of [collect_ports]. *)
Fixpoint collect_port_bindings
    (port_bindings : list (string * option (list binding)))
    : result (list port_spec) :=
  match port_bindings with
  | [] => Ok []
  | (container_port_proto, bindings) :: rest =>
      match default [] bindings with
      | [] => collect_port_bindings rest
      | bindings =>
          '(port_part, proto) ← unpack_port_proto container_port_proto;
          target_port ← PyInt.int port_part;
          ports ← collect_bindings proto target_port bindings;
          more ← collect_port_bindings rest;
          Ok (app ports more)
      end
  end.

Definition collect_ports (container_attrs : container_attrs)
    : result (list port_spec) :=
  let host_config := default empty_host_config (HostConfig container_attrs) in
  collect_port_bindings (default [] (PortBindings host_config)).

Definition requires_local_constraint (mounts : list mount_spec) : bool :=
  existsb
    (fun mount =>
       bool_decide (ms_Type mount = Some "bind")
       || (bool_decide (ms_Type mount = Some "volume")
           && negb (PyStr.startswith "/var/lib/docker/volumes/"
                                     (ms_Source mount))))
    mounts.

(** [x or None] followed by the filter [if v]: an empty list is dropped. *)
Definition nonempty_list {A : Type} (o : option (list A)) : option (list A) :=
  match o with
  | Some ((_ :: _) as l) => Some l
  | _ => None
  end.

Definition nonempty_str (o : option string) : option string :=
  if PyStr.truthy o then o else None.

(** The restart-policy lines of [build_service_spec].  An integer is truthy
    when it is not zero. *)
Definition build_restart_spec (restart_policy : restart_policy)
    : restart_spec :=
  let condition := PyStr.or_else (rp_Name restart_policy) "any" in
  let condition := if String.eqb condition "no" then "none" else condition in
  {| Condition := condition;
     MaxAttempts :=
       match MaximumRetryCount restart_policy with
       | Some n => if (n =? 0)%Z then None else Some n
       | None => None
       end |}.

Definition build_service_spec (self : DockerManager)
    (container_attrs : container_attrs) : result service_spec :=
  let config := default empty_config (Config container_attrs) in
  let host_config := default empty_host_config (HostConfig container_attrs) in
  let service_name := derive_service_name container_attrs in
  let mounts := collect_mounts container_attrs in
  let networks := collect_networks self container_attrs in
  ports ← collect_ports container_attrs;
  let container_spec :=
    {| cs_Image := nonempty_str (Image config);
       cs_Env := nonempty_list (Env config);
       cs_User := nonempty_str (User config);
       cs_Dir := nonempty_str (WorkingDir config);
       cs_Command := nonempty_list (Entrypoint config);
       cs_Args := nonempty_list (Cmd config);
       cs_Mounts := nonempty_list (Some mounts);
       cs_TTY := if default false (Tty config) then Some true else None |} in
  let restart_policy :=
    default empty_restart_policy (RestartPolicy host_config) in
  let restart_spec := build_restart_spec restart_policy in
  let placement :=
    if requires_local_constraint mounts
    then Some {| Constraints := ["node.id==" +:+ local_node_id self] |}
    else None in
  Ok {| s_Name := service_name;
        TaskTemplate := {| ContainerSpec := container_spec;
                           tt_RestartPolicy := restart_spec;
                           Placement := placement |};
        Replicas := 1;
        s_Labels :=
          <["autoswarm.source" :=
              PyStr.lstrip "/" (default EmptyString (Name container_attrs))]>
            (<[MANAGED_LABEL := "true"]> ∅);
        s_Networks :=
          match networks with [] => None | _ => Some networks end;
        EndpointSpec :=
          match ports with [] => None | _ => Some ports end |}.

(** ** JSON values, for the parts of a document the code passes through *)

Local Unset Elimination Schemes.
Inductive json : Type :=
  | JNull
  | JBool (b : bool)
  | JNum (n : Z)
  | JStr (s : string)
  | JArr (items : list json)
  | JObj (members : list (string * json)).
Local Set Elimination Schemes.

(** [d.get(k)] on the members of an object: [None] when the key is absent. *)
Fixpoint members_get (k : string) (members : list (string * json))
    : option json :=
  match members with
  | [] => None
  | (k', v) :: rest => if String.eqb k' k then Some v else members_get k rest
  end.

(** ** [config.HOST_RULE_RE]

    The pattern is [Host\(`([^`]+)`\)]: the literal [Host(`], a longest run
    of at least one character other than a backtick, and the literal [`)].
    A shorter run is followed by a character that is not a backtick, so the
    longest run is the only candidate at a given position. *)

Definition backtick : ascii := "`"%char.

Fixpoint drop_chars (n : nat) (s : string) : string :=
  match n, s with
  | S n', String _ s' => drop_chars n' s'
  | _, _ => s
  end.

(** The longest prefix without a backtick, and what follows it. *)
Fixpoint span_no_backtick (s : string) : string * string :=
  match s with
  | EmptyString => (EmptyString, EmptyString)
  | String c s' =>
      if Ascii.eqb c backtick then (EmptyString, s)
      else let '(g, rest) := span_no_backtick s' in (String c g, rest)
  end.

(** A match that starts at the first character; the result is group 1. *)
Definition host_rule_match_here (s : string) : option string :=
  if PyStr.startswith "Host(`" s then
    let '(g, rest) := span_no_backtick (drop_chars 6 s) in
    if negb (PyStr.is_empty g) && PyStr.startswith "`)" rest
    then Some g else None
  else None.

(** [HOST_RULE_RE.search(value)], reduced to [match.group(1)]: the leftmost
    position at which the pattern matches. *)
Fixpoint HOST_RULE_RE_search (value : string) : option string :=
  match host_rule_match_here value with
  | Some g => Some g
  | None =>
      match value with
      | EmptyString => None
      | String _ value' => HOST_RULE_RE_search value'
      end
  end.

(** ** [reconciler.py] *)

(** A dictionary whose order matters: its items in insertion order. *)
Abbreviation odict := (list (string * string)).

(** The keys of a dictionary are pairwise distinct. *)
Definition dict_wf (d : odict) : Prop := NoDup d.*1.

(** The mapping an ordered dictionary stands for. *)
Definition as_map (d : odict) : gmap string string :=
  foldl (fun acc item => <[item.1 := item.2]> acc) ∅ d.

(** [target.update(source)]. *)
Definition dict_update (target : gmap string string) (source : odict)
    : gmap string string :=
  foldl (fun acc item => <[item.1 := item.2]> acc) target source.

Record domain := {
  host : option string;
  domainType : option string;
  createdAt : option string;
  uniqueConfigKey : option string
}.

Record application := {
  applicationId : string;
  appName : string;
  labelsSwarm : option odict;
  networkSwarm : option (list network_attachment);
  domains : option (list domain)
}.

Record Reconciler := {
  (** [None] or empty when the ingress overlay was not resolved *)
  r_traefik_network_id : option string
}.

Definition normalize_router_rule (value host : string) : string * bool :=
  match HOST_RULE_RE_search value with
  | Some g => if String.eqb g host then (value, false)
              else ("Host(`" +:+ host +:+ "`)", true)
  | None => ("Host(`" +:+ host +:+ "`)", true)
  end.

(** [key.endswith(".rule") and "Host(" in value]. *)
Definition is_host_rule (key value : string) : bool :=
  PyStr.endswith ".rule" key && PyStr.contains "Host(" value.

(** The first loop of [build_desired_labels]: the host of the first rule
    label, in the dictionary's order, on which the pattern matches. *)
Fixpoint find_current_host (labels : odict) : option string :=
  match labels with
  | [] => None
  | (key, value) :: rest =>
      if is_host_rule key value then
        match HOST_RULE_RE_search value with
        | Some g => Some g
        | None => find_current_host rest
        end
      else find_current_host rest
  end.

(** [list.sort(key=...)]: ascending and stable. *)
Fixpoint insert_sorted {A : Type} (key : A -> string) (x : A) (l : list A)
    : list A :=
  match l with
  | [] => [x]
  | y :: l' =>
      if String.ltb (key x) (key y) then x :: y :: l'
      else y :: insert_sorted key x l'
  end.

Definition sort_by_key {A : Type} (key : A -> string) (l : list A) : list A :=
  foldl (fun acc x => insert_sorted key x acc) [] l.

Definition domain_sort_key (item : domain) : string :=
  PyStr.or_else (createdAt item)
                (PyStr.or_else (uniqueConfigKey item) EmptyString).

Definition find_primary_domain (current_host : option string)
    (domains : list domain) : option domain :=
  let by_host :=
    match current_host with
    | Some h =>
        List.find (fun domain => bool_decide (host domain = Some h)) domains
    | None => None
    end in
  match by_host with
  | Some d => Some d
  | None =>
      let application_domains :=
        filter (fun domain => domainType domain = Some "application") domains in
      last (sort_by_key domain_sort_key application_domains)
  end.

Definition build_desired_labels (application : application) : odict * bool :=
  let labels := default [] (labelsSwarm application) in
  let domains := default [] (domains application) in
  let current_host := find_current_host labels in
  match find_primary_domain current_host domains with
  | Some primary_domain =>
      if PyStr.truthy (host primary_domain) then
        let h := default EmptyString (host primary_domain) in
        let rewritten :=
          (fun '(key, value) =>
             if is_host_rule key value
             then (key, (normalize_router_rule value h).1)
             else (key, value)) <$> labels in
        let changed :=
          existsb (fun '(key, value) =>
                     is_host_rule key value
                     && (normalize_router_rule value h).2)
                  labels in
        (rewritten, changed)
      else (labels, false)
  | None => (labels, false)
  end.

(** [{net.get("Target") for net in networks}] restricted to the non-empty
    targets, which is all of them in [build_desired_networks]. *)
Definition extract_targets (data : list network_attachment) : gset string :=
  list_to_set
    (omap (fun item => if PyStr.truthy (Target item) then Target item else None)
          data).

Definition build_desired_networks (self : Reconciler)
    (application : application) : list network_attachment :=
  let networks :=
    omap (fun entry =>
            if PyStr.truthy (Target entry)
            then Some {| Target := Target entry; Aliases := Aliases entry |}
            else None)
         (default [] (networkSwarm application)) in
  let targets := extract_targets networks in
  match r_traefik_network_id self with
  | Some id =>
      if negb (PyStr.is_empty id) && bool_decide (id ∉ targets)
      then app networks [{| Target := Some id; Aliases := None |}]
      else networks
  | None => networks
  end.

Definition service_labels_match (current : gmap string string) (desired : odict)
    : bool :=
  forallb (fun '(key, value) => bool_decide (current !! key = Some value))
          desired.

Definition service_networks_match (current desired : list network_attachment)
    : bool :=
  bool_decide (extract_targets current = extract_targets desired).

(** The service as [service.attrs] gives it.  The keys the reconciler does
    not read are carried along untouched. *)
Record service_container_spec := {
  csl_Labels : option (gmap string string);
  csl_other : list (string * json)
}.

Record service_task_template := {
  st_ContainerSpec : option service_container_spec;
  st_other : list (string * json)
}.

Record service := {
  sv_id : string;
  sv_name : string;
  sv_Labels : option (gmap string string);
  sv_Networks : option (list network_attachment);
  sv_TaskTemplate : option service_task_template;
  (** [Version.Index] *)
  Version_Index : option Z
}.

Definition empty_service_container_spec : service_container_spec :=
  {| csl_Labels := None; csl_other := [] |}.

Definition empty_service_task_template : service_task_template :=
  {| st_ContainerSpec := None; st_other := [] |}.

(** The arguments of one [api.update_service] call. *)
Record update_call := {
  uc_id : string;
  uc_version : Z;
  uc_name : string;
  uc_labels : gmap string string;
  uc_task_template : service_task_template;
  uc_networks : option (list network_attachment)
}.

(** The arguments of one [dokploy_client.update_application] call. *)
Record write_back := {
  wb_application_id : string;
  wb_labels : odict;
  wb_networks : option (list network_attachment)
}.

(** How one run of [reconcile_application] ends. *)
Inductive outcome : Type :=
  | NoLabels          (* no desired labels: the first return *)
  | Aligned           (* nothing differs: the second return *)
  | MissingVersion    (* no version index: the third return *)
  | UpdateFailed (call : update_call) (e : exn)   (* [APIError], caught *)
  | UpdateRaised (call : update_call) (e : exn)   (* another one, not caught *)
  | Updated (call : update_call) (wb : option write_back).

(** The engine, as far as the reconciler sees it: the answer to an
    [update_service] call. *)
Abbreviation engine := (update_call -> result unit).

Definition current_labels (service : service) : gmap string string :=
  default ∅ (sv_Labels service).

Definition current_networks (service : service) : list network_attachment :=
  default [] (sv_Networks service).

Definition container_labels (service : service) : gmap string string :=
  let task_template :=
    default empty_service_task_template (sv_TaskTemplate service) in
  let container_spec :=
    default empty_service_container_spec (st_ContainerSpec task_template) in
  default ∅ (csl_Labels container_spec).

Definition reconcile_application (self : Reconciler) (api : engine)
    (application : application) (service : service) : outcome :=
  let current_labels := current_labels service in
  let current_networks := current_networks service in
  let task_template :=
    default empty_service_task_template (sv_TaskTemplate service) in
  let container_spec :=
    default empty_service_container_spec (st_ContainerSpec task_template) in
  let container_labels := default ∅ (csl_Labels container_spec) in
  let '(desired_labels, labels_changed) := build_desired_labels application in
  let desired_networks := build_desired_networks self application in
  match desired_labels with
  | [] => NoLabels
  | _ =>
      let merged_service_labels := dict_update current_labels desired_labels in
      let merged_container_labels :=
        dict_update container_labels desired_labels in
      let container_spec :=
        {| csl_Labels := Some merged_container_labels;
           csl_other := csl_other container_spec |} in
      let task_template :=
        {| st_ContainerSpec := Some container_spec;
           st_other := st_other task_template |} in
      let needs_label_update :=
        negb (service_labels_match current_labels desired_labels) in
      let needs_network_update :=
        negb (service_networks_match current_networks desired_networks) in
      let needs_container_update :=
        negb (service_labels_match container_labels desired_labels) in
      if negb (needs_label_update || needs_network_update
               || needs_container_update)
      then Aligned
      else
        match Version_Index service with
        | None => MissingVersion
        | Some version =>
            let call :=
              {| uc_id := sv_id service;
                 uc_version := version;
                 uc_name := sv_name service;
                 uc_labels := merged_service_labels;
                 uc_task_template := task_template;
                 uc_networks :=
                   match desired_networks with
                   | [] => None
                   | _ => Some desired_networks
                   end |} in
            match api call with
            | Raise (APIError msg) => UpdateFailed call (APIError msg)
            | Raise e => UpdateRaised call e
            | Ok _ =>
                Updated call
                  (if labels_changed
                   then Some {| wb_application_id := applicationId application;
                                wb_labels := desired_labels;
                                wb_networks := networkSwarm application |}
                   else None)
            end
        end
  end.

(** The call issued by a run, if any. *)
Definition issued_call (o : outcome) : option update_call :=
  match o with
  | UpdateFailed call _ | UpdateRaised call _ | Updated call _ => Some call
  | NoLabels | Aligned | MissingVersion => None
  end.

(** The service after the engine accepted a call: labels and task template
    are those of the call, the networks are replaced by the list of the call
    (none when the call carries none), and the version index advances. *)
Definition apply_update (call : update_call) (svc : service) : service :=
  {| sv_id := sv_id svc;
     sv_name := uc_name call;
     sv_Labels := Some (uc_labels call);
     sv_Networks := uc_networks call;
     sv_TaskTemplate := Some (uc_task_template call);
     Version_Index := Some (uc_version call + 1)%Z |}.

(** The service after one run: changed only by an accepted call. *)
Definition service_after (o : outcome) (svc : service) : service :=
  match o with
  | Updated call _ => apply_update call svc
  | _ => svc
  end.

(** ** [dokploy_client.py] *)

(** [AUTOSWARM_DOKPLOY_CACHE_TTL] with its default, in seconds. *)
Definition APPLICATION_CACHE_TTL : Z := 30.

(** The state of the client.  [time.time()] is a number of seconds; the
    clock is passed in as [now]. *)
Record DokployClient := {
  base_url : string;
  api_key : option string;
  _applications : list json;
  _cache_timestamp : Z
}.

(** What [session.get] and the response object give: the request raises, or
    a response arrives with a status and a body; the body is [None] when
    [resp.json()] cannot parse it. *)
Inductive http_reply : Type :=
  | TransportError (e : exn)
  | Response (status : Z) (body : option json).

Definition is_enabled (self : DokployClient) : bool :=
  PyStr.truthy (api_key self).

(** [resp.raise_for_status()] raises on the 4xx and 5xx codes. *)
Definition raise_for_status (status : Z) : result unit :=
  if ((400 <=? status) && (status <? 600))%Z
  then Raise (RequestException "HTTPError")
  else Ok tt.

(** Truthiness of a JSON value once parsed. *)
Definition json_truthy (v : json) : bool :=
  match v with
  | JNull => false
  | JBool b => b
  | JNum n => negb (n =? 0)%Z
  | JStr s => negb (PyStr.is_empty s)
  | JArr items => match items with [] => false | _ => true end
  | JObj members => match members with [] => false | _ => true end
  end.

Definition json_eqb_str (k : string) (v : json) : bool :=
  match v with JStr s => String.eqb s k | _ => false end.

(** ["error" in data]: a key of an object, an item of a list, a substring
    of a string; anything else is not iterable. *)
Definition contains_error (data : json) : result bool :=
  match data with
  | JObj members => Ok (bool_decide (is_Some (members_get "error" members)))
  | JArr items => Ok (existsb (json_eqb_str "error") items)
  | JStr s => Ok (PyStr.contains "error" s)
  | _ => Raise (TypeError "argument is not iterable")
  end.

(** [v.get(k, {})]: only an object has [get]. *)
Definition json_get (k : string) (v : json) : result json :=
  match v with
  | JObj members => Ok (default (JObj []) (members_get k members))
  | _ => Raise (AttributeError "object has no attribute 'get'")
  end.

(** [v.get(k, [])]. *)
Definition json_get_list (k : string) (v : json) : result json :=
  match v with
  | JObj members => Ok (default (JArr []) (members_get k members))
  | _ => Raise (AttributeError "object has no attribute 'get'")
  end.

Fixpoint chars_of (s : string) : list json :=
  match s with
  | EmptyString => []
  | String c s' => JStr (String c EmptyString) :: chars_of s'
  end.

(** [for x in v]: the items of a list, the keys of an object, the characters
    of a string. *)
Definition json_iter (v : json) : result (list json) :=
  match v with
  | JArr items => Ok items
  | JObj members => Ok (JStr <$> members.*1)
  | JStr s => Ok (chars_of s)
  | _ => Raise (TypeError "object is not iterable")
  end.

Definition _handle_response (resp_status : Z) (resp_body : option json)
    : result json :=
  _ ← raise_for_status resp_status;
  match resp_body with
  | None => Raise (ValueError "response is not JSON")
  | Some data =>
      match contains_error data with
      | Raise e => Raise e
      | Ok true =>
          match data with
          | JObj _ => Raise (RuntimeError "Dokploy error")
          | _ => Raise (TypeError "indices must be integers")
          end
      | Ok false =>
          r ← json_get "result" data;
          d ← json_get "data" r;
          json_get "json" d
      end
  end.

(** The three nested loops of [_refresh_cache]. *)
Definition flatten_applications (payload : json) : result (list json) :=
  projects ← (if json_truthy payload then json_iter payload else Ok []);
  per_project ←
    mapM (fun project =>
            envs ← json_get_list "environments" project;
            environments ← json_iter envs;
            per_env ←
              mapM (fun environment =>
                      apps ← json_get_list "applications" environment;
                      json_iter apps)
                   environments;
            Ok (concat per_env))
         projects;
  Ok (concat per_project).

(** [_refresh_cache]: the new state of the client, and the exception that
    leaves the method, if any. *)
Definition _refresh_cache (self : DokployClient) (force : bool) (now : Z)
    (reply : http_reply) : DokployClient * option exn :=
  if negb (is_enabled self) then (self, None)
  else if negb force && (now - _cache_timestamp self <? APPLICATION_CACHE_TTL)%Z
  then (self, None)
  else
    let fetched :=
      match reply with
      | TransportError e => Raise e
      | Response status body => _handle_response status body
      end in
    match fetched with
    | Raise _ => (self, None)
    | Ok payload =>
        match flatten_applications payload with
        | Raise e => (self, Some e)
        | Ok applications =>
            ({| base_url := base_url self;
                api_key := api_key self;
                _applications := applications;
                _cache_timestamp := now |}, None)
        end
    end.

(** [list_applications]: the copy handed out (when no exception leaves the
    refresh) and the state afterwards. *)
Definition list_applications (self : DokployClient) (now : Z)
    (reply : http_reply) : result (list json) * DokployClient :=
  match _refresh_cache self false now reply with
  | (self', Some e) => (Raise e, self')
  | (self', None) => (Ok (_applications self'), self')
  end.

(** The refresh attempts that fail: the transport raises, the status is an
    error status, the body does not parse, or the parsed object has an
    [error] member. *)
Inductive refresh_fails : http_reply -> Prop :=
  | fails_transport e :
      refresh_fails (TransportError e)
  | fails_status status body :
      (400 <= status < 600)%Z ->
      refresh_fails (Response status body)
  | fails_parse status :
      refresh_fails (Response status None)
  | fails_error_field status members v :
      members_get "error" members = Some v ->
      refresh_fails (Response status (Some (JObj members))).

(** ** [docker_manager.py]: the conversion of a container *)

(** A container object: its identifier, its name and the attributes read
    when the object was fetched. *)
Record container := {
  ct_id : string;
  ct_name : string;
  ct_attrs : container_attrs
}.

(** The calls that change the engine. *)
Inductive api_call : Type :=
  | CreateService (spec : service_spec)
  | StopContainer (container_id : string) (timeout : Z)
  | RemoveContainer (container_id : string).

(** The engine as the manager sees it.  Every answer may depend on the
    calls made so far.  [containers_get] is [None] for [NotFound]; a
    changing call is answered by [Ok] or by an exception, of which the code
    catches [APIError]. *)
Record docker_engine := {
  containers_list : list api_call -> list container;
  containers_get : list api_call -> string -> option container;
  engine_networks : list api_call -> list docker_net;
  engine_answer : list api_call -> api_call -> result unit
}.

(** The manager with the answer of [networks.list()] at this moment. *)
Definition manager_at (self : DockerManager) (eng : docker_engine)
    (trace : list api_call) : DockerManager :=
  {| networks_list := engine_networks eng trace;
     local_node_id := local_node_id self;
     traefik_network_id := traefik_network_id self |}.

(** [attrs.get("Config", {}).get("Labels")]. *)
Definition config_labels (attrs : container_attrs)
    : option (gmap string string) :=
  c_Labels (default empty_config (Config attrs)).

(** A call whose [APIError] is caught and logged: the calls so far, and the
    exception that is not caught, if any. *)
Definition best_effort (eng : docker_engine) (trace : list api_call)
    (call : api_call) : list api_call * option exn :=
  match engine_answer eng trace call with
  | Ok _ | Raise (APIError _) => (app trace [call], None)
  | Raise e => (app trace [call], Some e)
  end.

(** [create_service_from_container]: the calls made so far, extended, and
    the name returned, which is empty when nothing was created. *)
Definition create_service_from_container (self : DockerManager)
    (eng : docker_engine) (trace : list api_call) (container_id : string)
    : list api_call * result string :=
  match containers_get eng trace container_id with
  | None => (trace, Ok EmptyString)
  | Some container =>
      let attrs := ct_attrs container in
      let labels := config_labels attrs in
      if should_ignore labels then (trace, Ok EmptyString)
      else if is_swarm_container labels then (trace, Ok EmptyString)
      else
        match build_service_spec (manager_at self eng trace) attrs with
        | Raise e => (trace, Raise e)
        | Ok spec =>
            let service_name := s_Name spec in
            let create := CreateService spec in
            match engine_answer eng trace create with
            | Raise (APIError _) => (app trace [create], Ok EmptyString)
            | Raise e => (app trace [create], Raise e)
            | Ok _ =>
                match best_effort eng (app trace [create])
                        (StopContainer (ct_id container) 5) with
                | (trace, Some e) => (trace, Raise e)
                | (trace, None) =>
                    match best_effort eng trace
                            (RemoveContainer (ct_id container)) with
                    | (trace, Some e) => (trace, Raise e)
                    | (trace, None) => (trace, Ok service_name)
                    end
                end
            end
        end
  end.

(** The loop of [initial_sweep] over the listed containers.  An exception
    that leaves a conversion ends the sweep. *)
Fixpoint sweep_containers (self : DockerManager) (eng : docker_engine)
    (trace : list api_call) (containers : list container)
    : list api_call * result unit :=
  match containers with
  | [] => (trace, Ok tt)
  | container :: rest =>
      let labels := config_labels (ct_attrs container) in
      if is_swarm_container labels || should_ignore labels
      then sweep_containers self eng trace rest
      else
        match create_service_from_container self eng trace
                (ct_id container) with
        | (trace, Raise e) => (trace, Raise e)
        | (trace, Ok _) => sweep_containers self eng trace rest
        end
  end.

Definition initial_sweep (self : DockerManager) (eng : docker_engine)
    (trace : list api_call) : list api_call * result unit :=
  sweep_containers self eng trace (containers_list eng trace).

(** ** [event_monitor.py] *)

(** One decoded event of the stream. *)
Record event := {
  ev_Type : option string;
  ev_Action : option string;
  ev_id : option string
}.

(** The body of the loop over the stream, for one event: the set
    [_handled] afterwards, and the container for which the callback is
    started, if any. *)
Definition handle_event (handled : gset string) (ev : event)
    : gset string * option string :=
  if negb (bool_decide (ev_Type ev = Some "container")) then (handled, None)
  else if negb (bool_decide (ev_Action ev = Some "create"
                             ∨ ev_Action ev = Some "start"))
  then (handled, None)
  else
    match ev_id ev with
    | Some container_id =>
        if PyStr.is_empty container_id
           || bool_decide (container_id ∈ handled)
        then (handled, None)
        else ({[container_id]} ∪ handled, Some container_id)
    | None => (handled, None)
    end.

(** The loop of [event_loop] over the events that arrive while the stop
    event is not set: the set [_handled] afterwards, and the containers the
    callback was started for, in order.  The set lives in the monitor, so
    it is carried over when the stream is opened again. *)
Fixpoint event_loop (handled : gset string) (events : list event)
    : gset string * list string :=
  match events with
  | [] => (handled, [])
  | ev :: rest =>
      let '(handled, started) := handle_event handled ev in
      let '(handled, more) := event_loop handled rest in
      (handled, app (option_list started) more)
  end.

(** One subscription to the stream, [self.api.events(decode=True)]: the
    events it delivers while the stop event is not set, and whether the stop
    event is set when the subscription is left.  A subscription is left when
    an event arrives with the stop event set ([break]), when the stream
    raises (the loop logs the error and sleeps) or when the stream ends. *)
Record subscription := {
  sub_events : list event;
  sub_stop : bool
}.

(** The outer loop of [event_loop], [while not stop_event.is_set()].  The set
    [_handled] is created with the monitor and the loop never empties it, so
    each subscription starts with the set the previous one left.  The result
    is the set afterwards and the containers the callback was started for,
    in order, once the subscriptions listed are over. *)
Fixpoint event_loop_runs (handled : gset string)
    (subscriptions : list subscription) : gset string * list string :=
  match subscriptions with
  | [] => (handled, [])
  | sub :: rest =>
      let '(handled, started) := event_loop handled (sub_events sub) in
      if sub_stop sub then (handled, started)
      else
        let '(handled, more) := event_loop_runs handled rest in
        (handled, app started more)
  end.

(** ** [dokploy_client.py]: lookups and writes *)

(** [application.get("appName") == app_name]: only an object has [get]. *)
Definition appname_is (app_name : string) (application : json) : result bool :=
  match application with
  | JObj members =>
      Ok (match members_get "appName" members with
          | Some v => json_eqb_str app_name v
          | None => false
          end)
  | _ => Raise (AttributeError "object has no attribute 'get'")
  end.

(** The loop of [find_application_by_appname] over the snapshot. *)
Fixpoint find_in_snapshot (app_name : string) (applications : list json)
    : result (option json) :=
  match applications with
  | [] => Ok None
  | application :: rest =>
      match appname_is app_name application with
      | Raise e => Raise e
      | Ok true => Ok (Some application)
      | Ok false => find_in_snapshot app_name rest
      end
  end.

Definition find_application_by_appname (self : DokployClient)
    (app_name : string) (now : Z) (reply : http_reply)
    : result (option json) * DokployClient :=
  if negb (is_enabled self) then (Ok None, self)
  else
    match _refresh_cache self false now reply with
    | (self', Some e) => (Raise e, self')
    | (self', None) => (find_in_snapshot app_name (_applications self'), self')
    end.

(** The body of a write, inside its envelope [{"0": {"json": ...}}]. *)
Inductive write_request : Type :=
  | ApplicationUpdate (application_id : string) (labels : option odict)
      (networks : option (list network_attachment))
  | DomainUpdate (members : list (string * json)).

(** [d[k] = v] on the members of an object: the value of an existing key is
    replaced in place, a new key goes to the end. *)
Fixpoint members_set (k : string) (v : json) (members : list (string * json))
    : list (string * json) :=
  match members with
  | [] => [(k, v)]
  | (k', v') :: rest =>
      if String.eqb k' k then (k, v) :: rest
      else (k', v') :: members_set k v rest
  end.

(** [{"domainId": domain_id, **payload}]. *)
Definition domain_body (domain_id : string) (payload : list (string * json))
    : list (string * json) :=
  foldl (fun acc member => members_set member.1 member.2 acc)
        [("domainId", JStr domain_id)] payload.

(** What [update_application] and [update_domain] share after the body is
    built: the request is posted, its answer is checked, and only then the
    cache is refreshed, forced.  The result is the request that was posted,
    if any, the client afterwards, and the exception that leaves the
    method. *)
Definition post_and_refresh (self : DokployClient) (request : write_request)
    (now : Z) (post_reply get_reply : http_reply)
    : option write_request * DokployClient * option exn :=
  if negb (is_enabled self) then (None, self, None)
  else
    let answered :=
      match post_reply with
      | TransportError e => Raise e
      | Response status body => _handle_response status body
      end in
    match answered with
    | Raise _ => (Some request, self, None)
    | Ok _ =>
        let '(self', e) := _refresh_cache self true now get_reply in
        (Some request, self', e)
    end.

Definition update_application (self : DokployClient) (application_id : string)
    (labels : option odict) (networks : option (list network_attachment))
    (now : Z) (post_reply get_reply : http_reply)
    : option write_request * DokployClient * option exn :=
  post_and_refresh self (ApplicationUpdate application_id labels networks)
                   now post_reply get_reply.

Definition update_domain (self : DokployClient) (domain_id : string)
    (payload : list (string * json)) (now : Z)
    (post_reply get_reply : http_reply)
    : option write_request * DokployClient * option exn :=
  post_and_refresh self (DomainUpdate (domain_body domain_id payload))
                   now post_reply get_reply.

(** ** [reconciler.py]: the cycle over all applications *)

(** [{service.name: service for service in services.list()}]: a later
    service of the same name replaces an earlier one. *)
Definition services_by_name (services : list service) : gmap string service :=
  foldl (fun acc sv => <[sv_name sv := sv]> acc) ∅ services.

(** The loop of [reconcile_all].  The engine may answer by the calls issued
    so far in the cycle; [control_plane] gives the exception that leaves
    the write-back, if any.  An exception that [reconcile_application] does
    not catch, from the engine or from the write-back, leaves the loop; the
    outcomes up to it are returned. *)
Fixpoint reconcile_applications (self : Reconciler)
    (api : list update_call -> engine)
    (control_plane : write_back -> option exn)
    (services : gmap string service)
    (calls : list update_call) (applications : list application)
    : list outcome :=
  match applications with
  | [] => []
  | application :: rest =>
      let app_name := appName application in
      if PyStr.is_empty app_name
      then reconcile_applications self api control_plane services calls rest
      else
        match services !! app_name with
        | None =>
            reconcile_applications self api control_plane services calls rest
        | Some service =>
            let o :=
              reconcile_application self (api calls) application service in
            let more :=
              reconcile_applications self api control_plane services
                (app calls (option_list (issued_call o))) rest in
            match o with
            | UpdateRaised _ _ => [o]
            | Updated _ (Some wb) =>
                match control_plane wb with
                | Some _ => [o]
                | None => o :: more
                end
            | _ => o :: more
            end
        end
  end.

(** [reconcile_all], given what the client answers ([is_enabled] and
    [list_applications]) and what the engine lists. *)
Definition reconcile_all (self : Reconciler) (api : list update_call -> engine)
    (control_plane : write_back -> option exn)
    (enabled : bool) (applications : list application)
    (services : list service) : list outcome :=
  if negb enabled then []
  else reconcile_applications self api control_plane
                              (services_by_name services) [] applications.

(** ** Predicates used to state the properties *)

(** A character of [[a-z0-9_-]]. *)
Definition name_char (c : ascii) : bool :=
  PyStr.is_lower_az c || PyStr.is_digit c || Ascii.eqb c "_" || Ascii.eqb c "-".

(** A character that the sanitising loop keeps as something other than
    ["-"]: an alphanumeric or an underscore. *)
Definition kept_char (c : ascii) : bool :=
  PyStr.isalnum c || Ascii.eqb c "_".

(** Only [[a-z0-9_-]], not empty, no ["-"] at either end. *)
Definition valid_service_name (s : string) : Prop :=
  PyStr.all_chars name_char s = true
  ∧ s ≠ EmptyString
  ∧ PyStr.first_char s ≠ Some "-"%char
  ∧ PyStr.last_char s ≠ Some "-"%char.

(** The prefix relation on strings. *)
Definition has_prefix (p s : string) : Prop := exists rest, s = p +:+ rest.

(** A translated mount whose data lives on this node: a bind mount, or a
    volume whose source is outside the default volume root. *)
Definition node_local (m : mount_spec) : Prop :=
  ms_Type m = Some "bind"
  ∨ (ms_Type m = Some "volume"
     ∧ ~ has_prefix "/var/lib/docker/volumes/" (ms_Source m)).

(** The restart policy the translator reads. *)
Definition source_restart_policy (C : container_attrs) : restart_policy :=
  default empty_restart_policy
    (RestartPolicy (default empty_host_config (HostConfig C))).

(** The port bindings the translator reads. *)
Definition source_port_bindings (C : container_attrs)
    : list (string * option (list binding)) :=
  default [] (PortBindings (default empty_host_config (HostConfig C))).

(** The key has a ["/"] whose prefix is an integer literal. *)
Definition key_has_port (key : string) : Prop :=
  exists port_part proto,
    key = port_part +:+ "/" +:+ proto ∧ is_Some (PyInt.parse port_part).

(** Every non-empty [HostPort] is an integer literal. *)
Definition host_ports_parse (bindings : list binding) : Prop :=
  Forall (fun b => PyStr.truthy (HostPort b) = true ->
                   is_Some (PyInt.parse (default EmptyString (HostPort b))))
         bindings.

(** The precondition on the port bindings as C10 words it: it speaks of
    every key. *)
Definition ports_precondition
    (port_bindings : list (string * option (list binding))) : Prop :=
  Forall (fun entry => key_has_port entry.1
                       ∧ host_ports_parse (default [] entry.2))
         port_bindings.

(** The precondition restricted to the keys that have bindings, which are
    the only ones the loop looks at. *)
Definition bound_ports_precondition
    (port_bindings : list (string * option (list binding))) : Prop :=
  Forall (fun entry => default [] entry.2 <> [] ->
                       key_has_port entry.1
                       ∧ host_ports_parse (default [] entry.2))
         port_bindings.

(** The restart part of C8 as it words the retry count: [MaxAttempts] is
    in the translated policy exactly when the source has a
    [MaximumRetryCount]. *)
Definition max_attempts_iff_specified (C : container_attrs)
    (spec : service_spec) : Prop :=
  is_Some (MaxAttempts (tt_RestartPolicy (TaskTemplate spec)))
  <-> is_Some (MaximumRetryCount (source_restart_policy C)).

(** How the restart policy is translated: the condition by name, and the
    retry count when it is not zero. *)
Definition restart_policy_translated (source : restart_policy)
    (translated : restart_spec) : Prop :=
  (rp_Name source = Some "no" -> Condition translated = "none")
  ∧ (rp_Name source = None ∨ rp_Name source = Some EmptyString ->
     Condition translated = "any")
  ∧ (forall name,
       rp_Name source = Some name -> name <> EmptyString -> name <> "no" ->
       Condition translated = name)
  ∧ (forall n, MaxAttempts translated = Some n
               <-> MaximumRetryCount source = Some n ∧ n <> 0%Z).

(** An occurrence of [Host(`g`)] at the start of [s]: [g] is not empty and
    has no backtick. *)
Definition occurs_here (s g : string) : Prop :=
  g <> EmptyString
  ∧ PyStr.all_chars (fun c => negb (Ascii.eqb c backtick)) g = true
  ∧ exists rest, s = "Host(`" +:+ g +:+ "`)" +:+ rest.

(** [g] is the argument of the first occurrence of [Host(`...`)] in a
    string: the occurrence at the leftmost position that has one. *)
Inductive first_host : string -> string -> Prop :=
  | first_host_here s g :
      occurs_here s g -> first_host s g
  | first_host_later c s g :
      (forall g', ~ occurs_here (String c s) g') ->
      first_host s g ->
      first_host (String c s) g.

(** [current ⊇ desired], the desired dictionary taken as a set of pairs. *)
Definition labels_superset (current : gmap string string) (desired : odict)
    : Prop :=
  forall key value, (key, value) ∈ desired -> current !! key = Some value.

(** [t] is the target of an attachment of the list.  An attachment without
    a [Target], or with an empty one, has no target. *)
Definition has_target (data : list network_attachment) (t : string) : Prop :=
  exists item, item ∈ data ∧ Target item = Some t ∧ t <> EmptyString.

(** The two lists have the same set of targets. *)
Definition same_targets (current desired : list network_attachment) : Prop :=
  forall t, has_target current t <-> has_target desired t.

(** The test [any([...])] of [reconcile_application]: one of the three
    differences is there. *)
Definition needs_update (self : Reconciler) (A : application) (S : service)
    : bool :=
  let desired_labels := (build_desired_labels A).1 in
  negb (service_labels_match (current_labels S) desired_labels)
  || negb (service_networks_match (current_networks S)
                                  (build_desired_networks self A))
  || negb (service_labels_match (container_labels S) desired_labels).

(** A precondition under which the loop returns: every key that has
    bindings splits at its only ["/"] into an integer literal and a
    protocol, and the non-empty [HostPort]s under it are integer literals. *)
Definition bound_ports_well_formed
    (port_bindings : list (string * option (list binding))) : Prop :=
  Forall (fun entry =>
            default [] entry.2 <> [] ->
            (exists port_part proto,
               PyStr.split "/" entry.1 = [port_part; proto]
               ∧ is_Some (PyInt.parse port_part))
            ∧ host_ports_parse (default [] entry.2))
         port_bindings.

(** The binding names a host address other than the wildcard. *)
Definition host_published (b : binding) : Prop :=
  exists ip, HostIp b = Some ip ∧ ip <> EmptyString ∧ ip <> "0.0.0.0".

(** The port publication [p] is the translation of the binding [b] found
    under the key [key]. *)
Definition port_of_binding (key : string) (b : binding) (p : port_spec)
    : Prop :=
  exists port_part host_port,
    key = port_part +:+ "/" +:+ Protocol p
    ∧ PyInt.parse port_part = Some (TargetPort p)
    ∧ HostPort b = Some host_port
    ∧ host_port <> EmptyString
    ∧ PyInt.parse host_port = Some (PublishedPort p)
    ∧ (PublishMode p = "host" ∧ host_published b
       ∨ PublishMode p = "ingress" ∧ ~ host_published b).

(** The number of bindings that name a host port. *)
Definition published_count
    (port_bindings : list (string * option (list binding))) : nat :=
  sum_list
    ((fun entry =>
        length (filter (fun b => PyStr.truthy (HostPort b) = true)
                       (default [] entry.2)))
     <$> port_bindings).

(** The translated mount [ms] comes from the source mount [m]. *)
Definition mount_of (m : mount) (ms : mount_spec) : Prop :=
  m_Destination m = Some (ms_Target ms)
  ∧ m_Source m = Some (ms_Source ms)
  ∧ m_Type m = ms_Type ms
  ∧ ms_ReadOnly ms = negb (default true (m_RW m))
  ∧ ms_BindOptions ms
    = (if decide (m_Type m = Some "bind")
       then Some (default "rprivate" (m_Propagation m))
       else None).

(** No optional part of the container spec is present and empty. *)
Definition no_empty_value (cs : container_spec) : Prop :=
  cs_Image cs <> Some EmptyString
  ∧ cs_Env cs <> Some []
  ∧ cs_User cs <> Some EmptyString
  ∧ cs_Dir cs <> Some EmptyString
  ∧ cs_Command cs <> Some []
  ∧ cs_Args cs <> Some []
  ∧ cs_Mounts cs <> Some []
  ∧ cs_TTY cs <> Some false.

(** One of the labels that mark a container as owned by the cluster or by
    this agent. *)
Definition has_swarm_label (labels : gmap string string) : Prop :=
  is_Some (labels !! "com.docker.swarm.service.name")
  ∨ is_Some (labels !! "com.docker.swarm.task")
  ∨ is_Some (labels !! "com.docker.compose.project")
  ∨ is_Some (labels !! "autoswarm.managed").

(** The ignore label is set to ["true"], in any letter case. *)
Definition has_ignore_label (labels : gmap string string) : Prop :=
  exists v, labels !! "autoswarm.ignore" = Some v
            ∧ PyStr.map_chars PyStr.lower v = "true".

(** The container is passed over: it has a label of the cluster or of this
    agent, or the ignore label set to true. *)
Definition passed_over (c : container) : Prop :=
  exists labels,
    config_labels (ct_attrs c) = Some labels
    ∧ (has_swarm_label labels ∨ has_ignore_label labels).

(** An answer of the engine that lets a best-effort call go on: the call
    succeeded, or it raised [APIError], which is caught and logged. *)
Definition goes_on (answer : result unit) : Prop :=
  answer = Ok tt ∨ exists msg, answer = Raise (APIError msg).

(** The answer is an exception that the code does not catch. *)
Definition raises_uncaught (answer : result unit) (e : exn) : Prop :=
  answer = Raise e ∧ forall msg, e <> APIError msg.

(** The calls of a conversion that got as far as the service spec, with the
    result.  The creation alone when the engine refused it (the empty name
    for [APIError], the exception otherwise).  After an accepted creation
    the stop, with timeout 5; the removal follows unless the stop raised an
    exception that is not caught; the name of the service is returned
    unless the removal raised one. *)
Definition conversion_calls_of (eng : docker_engine) (trace : list api_call)
    (c : container) (spec : service_spec) (calls : list api_call)
    (r : result string) : Prop :=
  let create := CreateService spec in
  let stop := StopContainer (ct_id c) 5 in
  let remove := RemoveContainer (ct_id c) in
  let created := engine_answer eng trace create in
  let stopped := engine_answer eng (app trace [create]) stop in
  let removed := engine_answer eng (app trace [create; stop]) remove in
  (calls = [create]
   ∧ ((exists msg, created = Raise (APIError msg)) ∧ r = Ok EmptyString
      ∨ exists e, raises_uncaught created e ∧ r = Raise e))
  ∨ (created = Ok tt
     ∧ ((calls = [create; stop]
         ∧ exists e, raises_uncaught stopped e ∧ r = Raise e)
        ∨ (calls = [create; stop; remove]
           ∧ goes_on stopped
           ∧ (goes_on removed ∧ r = Ok (s_Name spec)
              ∨ exists e, raises_uncaught removed e ∧ r = Raise e)))).

(** The event announces the creation or the start of the container [id]. *)
Definition announces (ev : event) (id : string) : Prop :=
  ev_Type ev = Some "container"
  ∧ (ev_Action ev = Some "create" ∨ ev_Action ev = Some "start")
  ∧ ev_id ev = Some id
  ∧ id <> EmptyString.

(** A host name that can stand in a rule: not empty and free of
    backticks. *)
Definition host_ok (h : string) : Prop :=
  h <> EmptyString
  ∧ PyStr.all_chars (fun c => negb (Ascii.eqb c backtick)) h = true.

(** The labels an application declares, as [build_desired_labels] reads
    them. *)
Definition declared_labels (A : application) : odict :=
  default [] (labelsSwarm A).

(** The primary domain [build_desired_labels] settles on. *)
Definition primary_domain (A : application) : option domain :=
  find_primary_domain (find_current_host (declared_labels A))
                      (default [] (domains A)).

(** A domain of type [application]. *)
Definition application_domain (d : domain) : Prop :=
  domainType d = Some "application".

(** The order of [list.sort(key=...)]: the key of the first element is
    not above that of the second. *)
Definition key_order {A : Type} (key : A -> string) (x y : A) : Prop :=
  String.leb (key x) (key y) = true.

(** The sort key of the first domain is not above that of the second. *)
Definition key_le (d1 d2 : domain) : Prop :=
  key_order domain_sort_key d1 d2.

(** Two applications with a domain each, declared in this order. *)
Definition two_domains : list domain :=
  [{| host := Some "b.example.com"; domainType := Some "application";
      createdAt := Some "2024-05-01"; uniqueConfigKey := None |};
   {| host := Some "a.example.com"; domainType := Some "application";
      createdAt := Some "2023-01-01"; uniqueConfigKey := None |}].

(** The container labels of a task template, and the rest of it: the other
    keys of the container spec and the other keys of the template. *)
Definition template_labels (t : service_task_template) : gmap string string :=
  default ∅
    (csl_Labels (default empty_service_container_spec (st_ContainerSpec t))).

Definition template_rest (t : service_task_template)
    : list (string * json) * list (string * json) :=
  (csl_other (default empty_service_container_spec (st_ContainerSpec t)),
   st_other t).

(** The task template of the service as [reconcile_application] reads it. *)
Definition current_template (S : service) : service_task_template :=
  default empty_service_task_template (sv_TaskTemplate S).

(** The call updates the service [S] on behalf of the application [A]:
    the two have the same name, which is not empty, the application has
    desired labels, and the call carries the identifier, the name and the
    version index of the service. *)
Definition call_for (A : application) (S : service) (call : update_call)
    : Prop :=
  appName A = sv_name S
  ∧ appName A <> EmptyString
  ∧ (build_desired_labels A).1 <> []
  ∧ uc_id call = sv_id S
  ∧ uc_name call = sv_name S
  ∧ Version_Index S = Some (uc_version call).

(** The JSON value is an object with the member [k], of value [v]. *)
Definition has_member (k : string) (v : json) (j : json) : Prop :=
  exists members, j = JObj members ∧ members_get k members = Some v.

(** An environment of the catalogue with its applications, and a project
    with the applications of each of its environments. *)
Definition environment_of (applications : list json) (environment : json)
    : Prop :=
  has_member "applications" (JArr applications) environment.

Definition project_of (environments : list (list json)) (project : json)
    : Prop :=
  exists environment_jsons,
    has_member "environments" (JArr environment_jsons) project
    ∧ Forall2 environment_of environments environment_jsons.

(** The refresh goes to the network: the client is enabled, and the refresh
    is forced or the snapshot is older than the TTL. *)
Definition refresh_due (self : DokployClient) (force : bool) (now : Z)
    : Prop :=
  is_enabled self = true
  ∧ (force = true ∨ (APPLICATION_CACHE_TTL <= now - _cache_timestamp self)%Z).

(** The answer carries the catalogue [projects] in its envelope. *)
Definition answers_catalogue (reply : http_reply)
    (projects : list (list (list json))) : Prop :=
  exists status body project_jsons,
    reply = Response status body
    ∧ _handle_response status body = Ok (JArr project_jsons)
    ∧ Forall2 project_of projects project_jsons.

(** The applications of a catalogue, project by project and environment by
    environment. *)
Definition catalogue_applications (projects : list (list (list json)))
    : list json :=
  concat ((fun environments => concat environments) <$> projects).

(** The client after a refresh that fetched [applications] at [now]. *)
Definition refreshed (self : DokployClient) (applications : list json)
    (now : Z) : DokployClient :=
  {| base_url := base_url self; api_key := api_key self;
     _applications := applications; _cache_timestamp := now |}.

(** The subscriptions the loop goes through: those up to the first one that
    is left with the stop event set. *)
Fixpoint served (subscriptions : list subscription) : list subscription :=
  match subscriptions with
  | [] => []
  | sub :: rest => sub :: (if sub_stop sub then [] else served rest)
  end.

(** ** Sample inputs *)

(** The container of the first end-to-end scenario. *)
Definition web_attrs : container_attrs :=
  {| Name := Some "/web";
     Id := Some "3f4e8a1b9c0d7e6f5a4b";
     Config := Some {| Image := Some "nginx:1.25"; Env := None;
                       User := Some EmptyString; WorkingDir := None;
                       Entrypoint := None; Cmd := Some [];
                       Tty := Some false; c_Labels := None |};
     HostConfig :=
       Some {| RestartPolicy :=
                 Some {| rp_Name := Some "always";
                         MaximumRetryCount := Some 0%Z |};
               PortBindings :=
                 Some [("80/tcp",
                        Some [{| HostIp := Some EmptyString;
                                 HostPort := Some "8080" |}])] |};
     Networks := Some ["bridge"];
     Mounts := Some [{| m_Destination := Some "/data";
                        m_Source := Some "/srv/web";
                        m_Type := Some "bind"; m_RW := Some true;
                        m_Propagation := None |}] |}.

Definition sample_manager : DockerManager :=
  {| networks_list := [{| net_name := "traefik-public"; net_id := "tp1";
                          net_Driver := Some "overlay" |}];
     local_node_id := "node7";
     traefik_network_id := "tp1" |}.

(** A port key without ["/"] and without bindings, as an exposed port that
    is not published. *)
Definition unbound_port_attrs : container_attrs :=
  {| Name := Some "/web"; Id := None; Config := None;
     HostConfig := Some {| RestartPolicy := None;
                           PortBindings := Some [("80", Some [])] |};
     Networks := None; Mounts := None |}.

(** A port key without ["/"] that has a binding. *)
Definition bad_port_attrs : container_attrs :=
  {| Name := Some "/web"; Id := None; Config := None;
     HostConfig :=
       Some {| RestartPolicy := None;
               PortBindings :=
                 Some [("80", Some [{| HostIp := None;
                                       HostPort := Some "8080" |}])] |};
     Networks := None; Mounts := None |}.

(** The application and the service of the drifted-labels scenario. *)
Definition blog_application : application :=
  {| applicationId := "app-1";
     appName := "blog";
     labelsSwarm :=
       Some [("traefik.http.routers.blog.rule", "Host(`old.example.com`)");
             ("traefik.enable", "true")];
     networkSwarm := None;
     domains :=
       Some [{| host := Some "new.example.com";
                domainType := Some "application";
                createdAt := Some "2";
                uniqueConfigKey := None |}] |}.

Definition blog_service : service :=
  {| sv_id := "svc-1";
     sv_name := "blog";
     sv_Labels :=
       Some {[ "traefik.http.routers.blog.rule" := "Host(`old.example.com`)";
               "autoswarm.managed" := "true" ]};
     sv_Networks := None;
     sv_TaskTemplate := None;
     Version_Index := Some 7%Z |}.

Definition sample_reconciler : Reconciler :=
  {| r_traefik_network_id := Some "tp1" |}.

(** An engine that accepts every call. *)
Definition accepting_engine : engine := fun _ => Ok tt.

(** A client with one cached application, fetched at second 100. *)
Definition sample_client : DokployClient :=
  {| base_url := "http://dokploy:3000";
     api_key := Some "key";
     _applications := [JObj [("appName", JStr "blog")]];
     _cache_timestamp := 100 |}.

Definition web_container : container :=
  {| ct_id := "3f4e8a1b9c0d7e6f5a4b"; ct_name := "web";
     ct_attrs := web_attrs |}.

(** An engine with the sample container and the ingress overlay, which
    accepts every call. *)
Definition sample_engine : docker_engine :=
  {| containers_list := fun _ => [web_container];
     containers_get := fun _ container_id =>
       if String.eqb container_id "3f4e8a1b9c0d7e6f5a4b"
       then Some web_container else None;
     engine_networks := fun _ => networks_list sample_manager;
     engine_answer := fun _ _ => Ok tt |}.

(** A container that the agent created a service for earlier. *)
Definition managed_container : container :=
  {| ct_id := "77aa"; ct_name := "db";
     ct_attrs :=
       {| Name := Some "/db"; Id := Some "77aa";
          Config := Some {| Image := Some "postgres:16"; Env := None;
                            User := None; WorkingDir := None;
                            Entrypoint := None; Cmd := None; Tty := None;
                            c_Labels :=
                              Some {[ "autoswarm.managed" := "true" ]} |};
          HostConfig := None; Networks := None; Mounts := None |} |}.


(** In a cycle, an engine that accepts every call. *)
Definition accepting_cycle : list update_call -> engine :=
  fun _ => accepting_engine.

(** An answer with one project, one environment and one application. *)
Definition shop_reply : http_reply :=
  Response 200
    (Some (JObj [("result",
             JObj [("data",
               JObj [("json",
                 JArr [JObj [("name", JStr "main");
                   ("environments",
                    JArr [JObj [("applications",
                      JArr [JObj [("appName", JStr "shop")]])]])]])])])])).

(** A stretch of the event stream: a container is created and started,
    a network event arrives, a second container is created, the first one
    dies. *)
Definition sample_events : list event :=
  [{| ev_Type := Some "container"; ev_Action := Some "create";
      ev_id := Some "c1" |};
   {| ev_Type := Some "container"; ev_Action := Some "start";
      ev_id := Some "c1" |};
   {| ev_Type := Some "network"; ev_Action := Some "create";
      ev_id := Some "n1" |};
   {| ev_Type := Some "container"; ev_Action := Some "create";
      ev_id := Some "c2" |};
   {| ev_Type := Some "container"; ev_Action := Some "die";
      ev_id := Some "c1" |}].

(** The stream breaks after the sample stretch and delivers it again; the
    stop event is set during the second subscription, so a third one, which
    would announce another container, is never opened. *)
Definition sample_subscriptions : list subscription :=
  [{| sub_events := sample_events; sub_stop := false |};
   {| sub_events := sample_events; sub_stop := true |};
   {| sub_events := [{| ev_Type := Some "container";
                        ev_Action := Some "start";
                        ev_id := Some "c3" |}];
      sub_stop := false |}].

(** * Properties *)

(** ** Strings *)

Section strip_lemmas.
Import PyStr.
Variable c : ascii.

Lemma all_chars_lstrip p s :
  all_chars p s = true -> all_chars p (lstrip c s) = true.
Proof.
  induction s as [|a s IH]; simpl; [done|].
  intros [Ha Hs]%andb_prop. destruct (Ascii.eqb a c); [auto|].
  simpl. by rewrite Ha, Hs.
Qed.

Lemma all_chars_rstrip p s :
  all_chars p s = true -> all_chars p (rstrip c s) = true.
Proof.
  induction s as [|a s IH]; simpl; [done|].
  intros [Ha Hs]%andb_prop. specialize (IH Hs).
  destruct (rstrip c s) as [|b r].
  - destruct (Ascii.eqb a c); simpl; [done|]. by rewrite Ha.
  - change (all_chars p (String a (String b r)))
      with (p a && all_chars p (String b r)).
    by rewrite Ha, IH.
Qed.

Lemma first_char_lstrip s : first_char (lstrip c s) <> Some c.
Proof.
  induction s as [|a s IH]; simpl; [done|].
  destruct (Ascii.eqb a c) eqn:E; [done|].
  simpl. intros [= ->]. by rewrite Ascii.eqb_refl in E.
Qed.

Lemma first_char_rstrip a s :
  a <> c -> first_char (rstrip c (String a s)) = Some a.
Proof.
  intros Hne. simpl. destruct (rstrip c s); [|done].
  destruct (Ascii.eqb a c) eqn:E; [|done].
  by apply Ascii.eqb_eq in E.
Qed.

Lemma last_char_rstrip s : last_char (rstrip c s) <> Some c.
Proof.
  induction s as [|a s IH]; simpl; [done|].
  destruct (rstrip c s) as [|b r].
  - destruct (Ascii.eqb a c) eqn:E; simpl; [done|].
    intros [= ->]. by rewrite Ascii.eqb_refl in E.
  - exact IH.
Qed.

Lemma first_char_strip s : first_char (strip c s) <> Some c.
Proof.
  unfold strip. pose proof (first_char_lstrip s) as H.
  destruct (lstrip c s) as [|a t]; [done|].
  rewrite first_char_rstrip; [done|]. intros ->. by apply H.
Qed.

Lemma any_other_lstrip s :
  any_char (fun x => negb (Ascii.eqb x c)) (lstrip c s)
  = any_char (fun x => negb (Ascii.eqb x c)) s.
Proof.
  induction s as [|a s IH]; simpl; [done|].
  destruct (Ascii.eqb a c) eqn:E; simpl; [done|]. by rewrite E.
Qed.

Lemma rstrip_empty_iff s :
  rstrip c s = EmptyString
  <-> any_char (fun x => negb (Ascii.eqb x c)) s = false.
Proof.
  induction s as [|a s IH]; simpl; [done|].
  destruct (rstrip c s) as [|b r]; destruct (Ascii.eqb a c); simpl;
    split; try done; intros H; try (by apply IH); by apply IH in H.
Qed.

Lemma strip_empty_iff s :
  strip c s = EmptyString
  <-> any_char (fun x => negb (Ascii.eqb x c)) s = false.
Proof. unfold strip. by rewrite rstrip_empty_iff, any_other_lstrip. Qed.

End strip_lemmas.

Lemma is_empty_true s : PyStr.is_empty s = true <-> s = EmptyString.
Proof. by destruct s. Qed.

Lemma is_empty_false s : PyStr.is_empty s = false <-> s <> EmptyString.
Proof. by destruct s. Qed.

(** ** [derive_service_name] *)

Lemma sanitize_char_ascii c :
  PyStr.is_ascii c = true -> name_char (sanitize_char c) = true.
Proof.
  destruct c as [[] [] [] [] [] [] [] []]; intros H;
    first [discriminate H | reflexivity].
Qed.

Lemma sanitize_char_dash c :
  negb (Ascii.eqb (sanitize_char c) "-") = kept_char c.
Proof. by destruct c as [[] [] [] [] [] [] [] []]. Qed.

Lemma all_chars_sanitize s :
  PyStr.all_chars PyStr.is_ascii s = true ->
  PyStr.all_chars name_char (PyStr.map_chars sanitize_char s) = true.
Proof.
  induction s as [|a s IH]; simpl; [done|].
  intros [Ha Hs]%andb_prop. by rewrite sanitize_char_ascii, IH.
Qed.

Lemma any_char_sanitize s :
  PyStr.any_char (fun x => negb (Ascii.eqb x "-"))
                 (PyStr.map_chars sanitize_char s)
  = PyStr.any_char kept_char s.
Proof.
  induction s as [|a s IH]; simpl; [done|].
  by rewrite sanitize_char_dash, IH.
Qed.

(** The sanitised and trimmed name is empty exactly when the raw name has no
    alphanumeric character and no underscore. *)
Lemma sanitized_empty_iff s :
  PyStr.strip "-" (PyStr.map_chars sanitize_char s) = EmptyString
  <-> PyStr.any_char kept_char s = false.
Proof. by rewrite strip_empty_iff, any_char_sanitize. Qed.

(** Without a kept character the name falls back to the identifier, whose
    first eight characters are appended as they are. *)
Lemma derive_service_name_fallback C :
  PyStr.any_char kept_char (raw_name C) = false ->
  derive_service_name C
  = "autoswarm-" +:+ PyStr.slice_to 8 (default EmptyString (Id C)).
Proof.
  intros H%sanitized_empty_iff. unfold derive_service_name. by rewrite H.
Qed.

(** The result is never empty and never starts with ["-"]. *)
Lemma derive_service_name_nonempty C :
  derive_service_name C <> EmptyString
  ∧ PyStr.first_char (derive_service_name C) <> Some "-"%char.
Proof.
  unfold derive_service_name.
  destruct (PyStr.is_empty _) eqn:E.
  - split; done.
  - split; [by apply is_empty_false|apply first_char_strip].
Qed.

(** C5: the code breaks the property at the container that has neither a
    name nor an identifier.  [derive_service_name] returns ["autoswarm-"],
    which ends with ["-"], although it is documented to derive a valid
    service name and its main path trims the ["-"] at both ends: the
    fallback appends the identifier as it is, without sanitising or
    trimming. *)
Theorem derive_service_name_trailing_dash :
  derive_service_name empty_attrs = "autoswarm-"
  ∧ ~ valid_service_name (derive_service_name empty_attrs).
Proof.
  split; [reflexivity|].
  intros (_ & _ & _ & Hlast). by apply Hlast.
Qed.

(** Off the fallback the derived name is valid: when the raw name (the name
    without its leading ["/"], or else the first twelve characters of the
    identifier) is made of ASCII characters and has an alphanumeric
    character or an underscore, the derived name is the sanitised raw name
    with its edge ["-"] trimmed, and it contains only [[a-z0-9_-]], is not
    empty and neither starts nor ends with ["-"]. *)
Lemma derive_service_name_valid C :
  PyStr.all_chars PyStr.is_ascii (raw_name C) = true ->
  PyStr.any_char kept_char (raw_name C) = true ->
  derive_service_name C
  = PyStr.strip "-" (PyStr.map_chars sanitize_char (raw_name C))
  ∧ valid_service_name (derive_service_name C).
Proof.
  intros Hascii Hkept.
  assert (PyStr.strip "-" (PyStr.map_chars sanitize_char (raw_name C))
          <> EmptyString) as Hne.
  { rewrite sanitized_empty_iff. by rewrite Hkept. }
  assert (derive_service_name C
          = PyStr.strip "-" (PyStr.map_chars sanitize_char (raw_name C)))
    as ->.
  { unfold derive_service_name. apply is_empty_false in Hne. by rewrite Hne. }
  split; [done|]. repeat split.
  - apply all_chars_rstrip, all_chars_lstrip. by apply all_chars_sanitize.
  - done.
  - apply first_char_strip.
  - apply last_char_rstrip.
Qed.

(** The sample container is called ["web"], and that name is valid. *)
Lemma derive_service_name_valid_witness :
  derive_service_name web_attrs = "web"
  ∧ valid_service_name (derive_service_name web_attrs).
Proof.
  split; [reflexivity|].
  apply (derive_service_name_valid web_attrs); reflexivity.
Defined.

(** ** [collect_ports] *)

Lemma append_cons a s t : String a s +:+ t = String a (s +:+ t).
Proof. reflexivity. Qed.

Lemma split_nonempty c s : PyStr.split c s <> [].
Proof.
  destruct s as [|a s]; simpl; [done|].
  destruct (Ascii.eqb a c); [done|]. by destruct (PyStr.split c s).
Qed.

Lemma split_one c s q : PyStr.split c s = [q] -> s = q.
Proof.
  revert q. induction s as [|a s IH]; simpl; intros q.
  - by intros [= <-].
  - destruct (Ascii.eqb a c).
    + intros [= _ H]. by apply split_nonempty in H.
    + destruct (PyStr.split c s) as [|w ws] eqn:E;
        [by apply split_nonempty in E|].
      intros [= <- ->]. by rewrite (IH w).
Qed.

Lemma split_two c s p q :
  PyStr.split c s = [p; q] -> s = p +:+ String c q.
Proof.
  revert p. induction s as [|a s IH]; simpl; intros p; [done|].
  destruct (Ascii.eqb a c) eqn:E.
  - intros [= <- H]. apply Ascii.eqb_eq in E as ->.
    by rewrite (split_one _ _ _ H).
  - destruct (PyStr.split c s) as [|w ws] eqn:Es; [done|].
    intros [= <- ->]. by rewrite append_cons, <-(IH w).
Qed.

Lemma unpack_port_proto_ok key port_part proto :
  unpack_port_proto key = Ok (port_part, proto) ->
  key = port_part +:+ "/" +:+ proto.
Proof.
  unfold unpack_port_proto.
  destruct (PyStr.split "/" key) as [|p [|q [|r l]]] eqn:E; try done.
  intros [= <- <-]. by apply split_two.
Qed.

Lemma int_ok s z : PyInt.int s = Ok z -> PyInt.parse s = Some z.
Proof. unfold PyInt.int. destruct (PyInt.parse s); by intros [= <-]. Qed.

Lemma bind_ok {A B} (r : result A) (k : A -> result B) b :
  r ≫= k = Ok b -> exists a, r = Ok a ∧ k a = Ok b.
Proof. destruct r as [a|e]; [by exists a|done]. Qed.

Lemma collect_bindings_ok proto target_port bindings ports :
  collect_bindings proto target_port bindings = Ok ports ->
  host_ports_parse bindings.
Proof.
  revert ports. induction bindings as [|b bs IH]; intros ports; simpl.
  - intros _. constructor.
  - destruct (PyStr.truthy (HostPort b)) eqn:Et.
    + intros (z & Hz%int_ok & (ps & Hps & _)%bind_ok)%bind_ok.
      constructor; [by rewrite Hz|by eapply IH].
    + intros H. constructor; [by rewrite Et|by eapply IH].
Qed.

Lemma collect_port_bindings_ok port_bindings ports :
  collect_port_bindings port_bindings = Ok ports ->
  bound_ports_precondition port_bindings.
Proof.
  revert ports.
  induction port_bindings as [|[key bindings] rest IH]; intros ports;
    cbn [collect_port_bindings].
  - intros _. constructor.
  - destruct (default [] bindings) as [|b bs] eqn:Eb.
    + intros H. constructor; [|by eapply IH].
      simpl. rewrite Eb. intros Hne. exfalso. by apply Hne.
    + intros ([p q] & Hkey%unpack_port_proto_ok & H)%bind_ok.
      apply bind_ok in H as (z & Hz%int_ok & H).
      apply bind_ok in H as (ps & Hps%collect_bindings_ok & H).
      apply bind_ok in H as (more & Hmore & _).
      constructor; [|by eapply IH].
      simpl. rewrite Eb. intros _. split; [|done].
      exists p, q. by rewrite Hz.
Qed.

Lemma collect_bindings_returns proto target_port bindings :
  host_ports_parse bindings ->
  is_ok (collect_bindings proto target_port bindings) = true.
Proof.
  induction 1 as [|b bs Hb _ IH]; [done|]. simpl.
  destruct (PyStr.truthy (HostPort b)); [|done].
  destruct (Hb eq_refl) as [z Hz]. unfold PyInt.int. rewrite Hz. cbn.
  by destruct (collect_bindings proto target_port bs).
Qed.

(** Under that precondition the port translation returns a port list. *)
Lemma collect_ports_returns C :
  bound_ports_well_formed (source_port_bindings C) ->
  is_ok (collect_ports C) = true.
Proof.
  unfold collect_ports. fold (source_port_bindings C).
  induction 1 as [|[key bindings] rest Hentry _ IH]; [done|].
  cbn [collect_port_bindings]. simpl in Hentry.
  destruct (default [] bindings) as [|b bs] eqn:Eb; [done|].
  destruct Hentry as [(p & q & Hsplit & z & Hz) Hports]; [done|].
  cbv beta iota. remember (b :: bs) as bound eqn:Ebound. clear Ebound.
  unfold unpack_port_proto, PyInt.int. rewrite Hsplit. cbn. rewrite Hz. cbn.
  pose proof (collect_bindings_returns q z _ Hports) as Hbs.
  destruct (collect_bindings q z bound); [|done]. cbn.
  by destruct (collect_port_bindings rest).
Qed.

Lemma no_slash_in_80 : ~ key_has_port "80".
Proof.
  intros (p & q & H & _).
  destruct p as [|a [|b [|c p]]]; simpl in H; discriminate H.
Qed.

(** C10 as stated fails: a key without ["/"] whose binding list is empty is
    skipped before it is split, so [collect_ports] returns although the
    precondition on every key does not hold. *)
Lemma collect_ports_skips_unbound :
  collect_ports unbound_port_attrs = Ok []
  ∧ ~ ports_precondition (source_port_bindings unbound_port_attrs).
Proof.
  split; [reflexivity|].
  intros H. apply Forall_cons in H as [[H _] _]. by apply no_slash_in_80.
Qed.

(** C10, amended: when [collect_ports] returns, every key of the port
    bindings that has a non-empty binding list contains a ["/"] whose prefix
    is an integer literal, and every non-empty [HostPort] under such a key
    is an integer literal; and a key without ["/"] that has a binding makes
    [collect_ports], and with it [build_service_spec], raise. *)
Theorem collect_ports_partial :
  (forall C ports,
     collect_ports C = Ok ports ->
     bound_ports_precondition (source_port_bindings C))
  ∧ collect_ports bad_port_attrs
    = Raise (ValueError "not enough values to unpack")
  ∧ (forall self, is_ok (build_service_spec self bad_port_attrs) = false).
Proof.
  split; [|split; [reflexivity|done]].
  intros C ports H. by eapply collect_port_bindings_ok.
Qed.

(** The sample container publishes port 80 on 8080. *)
Lemma collect_ports_partial_witness :
  collect_ports web_attrs
  = Ok [{| Protocol := "tcp"; TargetPort := 80; PublishedPort := 8080;
           PublishMode := "ingress" |}]
  ∧ bound_ports_precondition (source_port_bindings web_attrs).
Proof.
  split; [reflexivity|].
  exact (proj1 collect_ports_partial web_attrs _ eq_refl).
Defined.

(** ** [build_service_spec] *)

Lemma startswith_prefix p s : PyStr.startswith p s = true <-> has_prefix p s.
Proof.
  revert s. induction p as [|a p IH]; intros s; simpl.
  - split; [intros _; by exists s|done].
  - destruct s as [|b s].
    + split; [done|]. by intros [rest H].
    + rewrite andb_true_iff, Ascii.eqb_eq, IH. split.
      * intros [-> [rest ->]]. by exists rest.
      * intros [rest H]. rewrite append_cons in H. injection H as -> ->.
        split; [done|]. by exists rest.
Qed.

Lemma requires_local_constraint_spec mounts :
  requires_local_constraint mounts = true
  <-> exists m, m ∈ mounts ∧ node_local m.
Proof.
  unfold requires_local_constraint, node_local.
  rewrite existsb_exists. apply exist_proper. intros m.
  rewrite <-list_elem_of_In, orb_true_iff, andb_true_iff, negb_true_iff.
  rewrite !bool_decide_eq_true, <-not_true_iff_false, startswith_prefix.
  done.
Qed.

(** The translation returns exactly when the port bindings translate. *)
Lemma build_service_spec_returns self C :
  is_ok (build_service_spec self C) = is_ok (collect_ports C).
Proof. unfold build_service_spec. by destruct (collect_ports C). Qed.

(** C1: whenever the port bindings of the container translate, the
    translation returns a service spec whose labels map the managed marker
    to ["true"] and whose replica count is 1. *)
Theorem build_service_spec_managed self C ports :
  collect_ports C = Ok ports ->
  exists spec,
    build_service_spec self C = Ok spec
    ∧ s_Labels spec !! "autoswarm.managed" = Some "true"
    ∧ Replicas spec = 1%Z.
Proof.
  intros Hports. unfold build_service_spec. rewrite Hports.
  eexists. split; [reflexivity|]. cbn [s_Labels Replicas]. split; [|done].
  rewrite lookup_insert_ne by done. apply lookup_insert_eq.
Qed.

(** The sample container translates, with the marker and one replica. *)
Lemma build_service_spec_managed_witness :
  exists spec,
    build_service_spec sample_manager web_attrs = Ok spec
    ∧ s_Labels spec !! "autoswarm.managed" = Some "true"
    ∧ Replicas spec = 1%Z.
Proof.
  exact (build_service_spec_managed sample_manager web_attrs _ eq_refl).
Defined.

(** C6: the translated task template carries the placement constraint
    [node.id==<LOCAL>] exactly when some translated mount is a bind mount or
    a volume whose source is not under [/var/lib/docker/volumes/]; otherwise
    it has no placement at all. *)
Theorem placement_iff_node_local self C ports :
  collect_ports C = Ok ports ->
  exists spec,
    build_service_spec self C = Ok spec
    ∧ (Placement (TaskTemplate spec)
         = Some {| Constraints := ["node.id==" +:+ local_node_id self] |}
       <-> exists m, m ∈ collect_mounts C ∧ node_local m)
    ∧ (Placement (TaskTemplate spec) = None
       <-> ~ exists m, m ∈ collect_mounts C ∧ node_local m).
Proof.
  intros Hports. unfold build_service_spec. rewrite Hports.
  eexists. split; [reflexivity|]. cbn [TaskTemplate Placement].
  rewrite <-requires_local_constraint_spec.
  destruct (requires_local_constraint (collect_mounts C)); split; split;
    congruence.
Qed.

(** Placement of the sample container on the sample node. *)
Lemma placement_iff_node_local_witness :
  exists spec,
    build_service_spec sample_manager web_attrs = Ok spec
    ∧ (Placement (TaskTemplate spec)
         = Some {| Constraints := ["node.id==" +:+ "node7"] |}
       <-> exists m, m ∈ collect_mounts web_attrs ∧ node_local m)
    ∧ (Placement (TaskTemplate spec) = None
       <-> ~ exists m, m ∈ collect_mounts web_attrs ∧ node_local m).
Proof.
  exact (placement_iff_node_local sample_manager web_attrs _ eq_refl).
Defined.

(** The bind mount of the sample container pins its service to the node. *)
Example web_placement :
  (fun spec => Placement (TaskTemplate spec)) <$>
    (match build_service_spec sample_manager web_attrs with
     | Ok spec => Some spec
     | Raise _ => None
     end)
  = Some (Some {| Constraints := ["node.id==node7"] |}).
Proof. reflexivity. Qed.

(** C8 as stated fails on the retry count: a source policy that specifies
    [MaximumRetryCount = 0] yields no [MaxAttempts]. *)
Lemma zero_retry_count_dropped :
  exists spec,
    build_service_spec sample_manager web_attrs = Ok spec
    ∧ MaximumRetryCount (source_restart_policy web_attrs) = Some 0%Z
    ∧ MaxAttempts (tt_RestartPolicy (TaskTemplate spec)) = None
    ∧ ~ max_attempts_iff_specified web_attrs spec.
Proof.
  eexists. split; [reflexivity|]. split; [reflexivity|]. split; [reflexivity|].
  intros [_ H]. destruct H as [n Hn]; [by eexists|]. discriminate Hn.
Qed.

(** C8, amended: the translated condition is ["none"] for the source name
    ["no"], ["any"] for an empty or missing name, and the name itself
    otherwise; [MaxAttempts] is present, with the source's value, exactly
    when the source specifies a [MaximumRetryCount] other than zero. *)
Theorem restart_policy_translation self C ports :
  collect_ports C = Ok ports ->
  exists spec,
    build_service_spec self C = Ok spec
    ∧ restart_policy_translated (source_restart_policy C)
                                (tt_RestartPolicy (TaskTemplate spec)).
Proof.
  intros Hports. unfold build_service_spec. rewrite Hports.
  eexists. split; [reflexivity|].
  cbn [TaskTemplate tt_RestartPolicy]. fold (source_restart_policy C).
  destruct (source_restart_policy C) as [name count].
  unfold restart_policy_translated, build_restart_spec.
  cbn [rp_Name MaximumRetryCount Condition MaxAttempts].
  split; [|split; [|split; [|intros n; split]]].
  - intros ->. reflexivity.
  - intros [-> | ->]; reflexivity.
  - intros n -> Hne Hno. destruct n as [|a n]; [done|].
    change (PyStr.or_else (Some (String a n)) "any") with (String a n).
    by destruct (String.eqb_spec (String a n) "no").
  - destruct count as [z|]; [|done].
    destruct (Z.eqb_spec z 0); [done|]. by intros [= <-].
  - intros [-> Hn]. by apply Z.eqb_neq in Hn as ->.
Qed.

(** The restart policy of the sample container. *)
Lemma restart_policy_translation_witness :
  exists spec,
    build_service_spec sample_manager web_attrs = Ok spec
    ∧ restart_policy_translated (source_restart_policy web_attrs)
                                (tt_RestartPolicy (TaskTemplate spec)).
Proof.
  exact (restart_policy_translation sample_manager web_attrs _ eq_refl).
Defined.

(** ** [normalize_router_rule] *)

Lemma span_no_backtick_spec s g rest :
  span_no_backtick s = (g, rest) ->
  s = g +:+ rest
  ∧ PyStr.all_chars (fun c => negb (Ascii.eqb c backtick)) g = true.
Proof.
  revert g. induction s as [|a s IH]; intros g; simpl.
  - by intros [= <- <-].
  - destruct (Ascii.eqb a backtick) eqn:E; [by intros [= <- <-]|].
    destruct (span_no_backtick s) as [g' rest'].
    intros [= <- <-]. destruct (IH g' eq_refl) as [-> Hg].
    split; [done|]. simpl. by rewrite E, Hg.
Qed.

Lemma span_no_backtick_app g rest :
  PyStr.all_chars (fun c => negb (Ascii.eqb c backtick)) g = true ->
  span_no_backtick (g +:+ String backtick rest) = (g, String backtick rest).
Proof.
  induction g as [|a g IH]; [done|].
  simpl. intros [Ha Hg]%andb_prop.
  apply negb_true_iff in Ha. by rewrite Ha, IH.
Qed.

Lemma startswith_drop p s :
  PyStr.startswith p s = true -> s = p +:+ drop_chars (String.length p) s.
Proof.
  revert s. induction p as [|a p IH]; intros s; simpl; [done|].
  destruct s as [|b s]; [done|].
  intros [->%Ascii.eqb_eq H]%andb_prop. by rewrite append_cons, <-IH.
Qed.

Lemma host_rule_match_here_spec s g :
  host_rule_match_here s = Some g <-> occurs_here s g.
Proof.
  unfold host_rule_match_here, occurs_here. split.
  - destruct (PyStr.startswith "Host(`" s) eqn:Ehead; [|done].
    apply startswith_drop in Ehead.
    change (String.length "Host(`") with 6 in Ehead.
    destruct (span_no_backtick (drop_chars 6 s)) as [g' rest] eqn:Espan.
    apply span_no_backtick_spec in Espan as [Hs Hg].
    destruct (PyStr.is_empty g') eqn:Eg; [done|].
    destruct (PyStr.startswith "`)" rest) eqn:Etail; [|done].
    intros [= <-]. apply startswith_drop in Etail.
    split; [by apply is_empty_false|]. split; [done|].
    exists (drop_chars 2 rest). by rewrite Ehead, Hs, Etail at 1.
  - intros (Hne & Hg & rest & ->).
    change (PyStr.startswith "Host(`" ("Host(`" +:+ g +:+ "`)" +:+ rest))
      with true.
    change (drop_chars 6 ("Host(`" +:+ g +:+ "`)" +:+ rest))
      with (g +:+ String backtick (String ")" rest)).
    rewrite span_no_backtick_app by done.
    apply is_empty_false in Hne. by rewrite Hne.
Qed.

Lemma host_rule_no_match_here s :
  host_rule_match_here s = None <-> forall g, ~ occurs_here s g.
Proof.
  split.
  - intros H g Hg%host_rule_match_here_spec. congruence.
  - intros H. destruct (host_rule_match_here s) as [g|] eqn:E; [|done].
    by apply host_rule_match_here_spec, H in E.
Qed.

(** The search finds the argument of the first occurrence, and only that. *)
Lemma HOST_RULE_RE_search_spec value g :
  HOST_RULE_RE_search value = Some g <-> first_host value g.
Proof.
  split.
  - revert g. induction value as [|c value IH]; intros g.
    + done.
    + cbn [HOST_RULE_RE_search].
      destruct (host_rule_match_here (String c value)) as [g'|] eqn:E.
      * intros [= <-]. by apply first_host_here, host_rule_match_here_spec.
      * intros H. apply first_host_later; [|by apply IH].
        by apply host_rule_no_match_here.
  - induction 1 as [s g H|c s g Hnone _ IH].
    + apply host_rule_match_here_spec in H.
      destruct s; cbn [HOST_RULE_RE_search]; by rewrite H.
    + apply host_rule_no_match_here in Hnone.
      cbn [HOST_RULE_RE_search]. by rewrite Hnone.
Qed.

(** C7: the rule value is kept, with [false], exactly when the first
    occurrence of [Host(`...`)] in it has the host as its argument; in every
    other case the whole value is replaced by [Host(`h`)], with [true]. *)
Theorem normalize_router_rule_spec value h :
  (normalize_router_rule value h = (value, false) <-> first_host value h)
  ∧ (normalize_router_rule value h = ("Host(`" +:+ h +:+ "`)", true)
     <-> ~ first_host value h)
  ∧ normalize_router_rule "Host(`a`)" "a" = ("Host(`a`)", false)
  ∧ normalize_router_rule "Host(`a`) && PathPrefix(`/x`)" "b"
    = ("Host(`b`)", true).
Proof.
  split; [|split; [|split; reflexivity]];
    rewrite <-HOST_RULE_RE_search_spec; unfold normalize_router_rule;
    destruct (HOST_RULE_RE_search value) as [g|];
    try destruct (String.eqb_spec g h) as [->|Hne];
    split; intros H; try done; try congruence.
Qed.

(** The two rule values of the examples, by their first occurrence. *)
Lemma normalize_router_rule_spec_witness :
  first_host "Host(`a`)" "a" ∧ ~ first_host "Host(`a`) && PathPrefix(`/x`)" "b".
Proof.
  split.
  - apply (proj1 (proj1 (normalize_router_rule_spec "Host(`a`)" "a"))).
    reflexivity.
  - apply (proj1 (proj1 (proj2
             (normalize_router_rule_spec "Host(`a`) && PathPrefix(`/x`)"
                                         "b")))).
    reflexivity.
Defined.

(** ** The control-plane cache *)

Lemma failed_response_raises status body :
  refresh_fails (Response status body) ->
  exists e, _handle_response status body = Raise e.
Proof.
  unfold _handle_response, raise_for_status.
  destruct ((400 <=? status) && (status <? 600))%Z eqn:E; [by eexists|].
  inversion 1 as [|? ? Hst|?|? ? v Hget]; subst.
  - apply andb_false_iff in E as [E%Z.leb_gt|E%Z.ltb_ge]; lia.
  - by eexists.
  - cbn. rewrite Hget, bool_decide_eq_true_2 by by eexists. by eexists.
Qed.

(** C9: a refresh attempt that fails in one of the four ways leaves the
    client as it was, with its snapshot and its time stamp, and a read that
    ran into the failure hands out the previous snapshot. *)
Theorem failed_refresh_keeps_cache self force now reply :
  refresh_fails reply ->
  _refresh_cache self force now reply = (self, None)
  ∧ list_applications self now reply = (Ok (_applications self), self).
Proof.
  intros Hfail.
  assert (forall f, _refresh_cache self f now reply = (self, None)) as H.
  { intros f. unfold _refresh_cache.
    destruct (negb (is_enabled self)); [done|].
    destruct (negb f && _); [done|].
    destruct reply as [e|status body]; [done|].
    by destruct (failed_response_raises _ _ Hfail) as [e ->]. }
  split; [apply H|]. unfold list_applications. by rewrite H.
Qed.

(** An answer with an [error] member leaves the sample client as it was. *)
Lemma failed_refresh_keeps_cache_witness :
  _refresh_cache sample_client true 1000
    (Response 200 (Some (JObj [("error", JStr "unauthorized")])))
  = (sample_client, None)
  ∧ list_applications sample_client 1000
      (Response 200 (Some (JObj [("error", JStr "unauthorized")])))
    = (Ok [JObj [("appName", JStr "blog")]], sample_client).
Proof.
  apply (failed_refresh_keeps_cache sample_client true 1000).
  by eapply fails_error_field.
Defined.

(** A refresh that succeeds does replace the snapshot and the time stamp. *)
Example successful_refresh_replaces_cache :
  _refresh_cache sample_client false 1000
    (Response 200
       (Some (JObj [("result",
                JObj [("data",
                  JObj [("json",
                    JArr [JObj [("environments",
                      JArr [JObj [("applications",
                        JArr [JObj [("appName", JStr "shop")]])]])]])])])])))
  = ({| base_url := "http://dokploy:3000"; api_key := Some "key";
        _applications := [JObj [("appName", JStr "shop")]];
        _cache_timestamp := 1000 |}, None).
Proof. reflexivity. Qed.

(** ** Dictionaries *)

Lemma dict_update_union (m : gmap string string) (d : odict) :
  dict_update m d = as_map d ∪ m.
Proof.
  unfold as_map, dict_update. revert m.
  induction d as [|[k v] d IH]; intros m; simpl.
  - by rewrite (left_id_L ∅ (∪)).
  - rewrite (IH (<[k:=v]> m)), (IH (<[k:=v]> ∅)).
    rewrite <-(assoc_L (∪)). f_equal.
    by rewrite <-insert_union_l, (left_id_L ∅ (∪)).
Qed.

Lemma as_map_snoc (d : odict) k v :
  as_map (d ++ [(k, v)]) = <[k:=v]> (as_map d).
Proof. unfold as_map. by rewrite foldl_app. Qed.

(** On a dictionary with distinct keys the mapping has exactly its items. *)
Lemma as_map_lookup (d : odict) k v :
  dict_wf d -> as_map d !! k = Some v <-> (k, v) ∈ d.
Proof.
  unfold dict_wf. induction d as [|[k' v'] d IH] using rev_ind.
  - intros _. unfold as_map. simpl. rewrite lookup_empty.
    split; [done|]. by intros ?%elem_of_nil.
  - rewrite fmap_app, as_map_snoc. simpl.
    intros (Hd & Hk' & _)%NoDup_app.
    rewrite elem_of_app, list_elem_of_singleton.
    destruct (decide (k' = k)) as [->|Hne].
    + rewrite lookup_insert_eq. split.
      * intros [= ->]. by right.
      * intros [Hin|[= ->]]; [|done]. exfalso.
        apply (Hk' k); [|by left].
        apply list_elem_of_fmap. by exists (k, v).
    + rewrite lookup_insert_ne by done. rewrite IH by done.
      split; [by left|]. intros [?|[= ? ?]]; [done|]. by subst.
Qed.

Lemma service_labels_match_spec current desired :
  service_labels_match current desired = true
  <-> labels_superset current desired.
Proof.
  unfold service_labels_match, labels_superset. rewrite forallb_forall. split.
  - intros H k v Hin%list_elem_of_In. apply H in Hin.
    by apply bool_decide_eq_true in Hin.
  - intros H [k v] Hin%list_elem_of_In. apply bool_decide_eq_true. by apply H.
Qed.

Lemma labels_superset_update current desired :
  dict_wf desired -> labels_superset (dict_update current desired) desired.
Proof.
  intros Hwf k v Hin. rewrite dict_update_union.
  apply lookup_union_Some_l. by apply as_map_lookup.
Qed.

Lemma extract_targets_spec data t :
  t ∈ extract_targets data <-> has_target data t.
Proof.
  unfold extract_targets, has_target.
  rewrite elem_of_list_to_set, list_elem_of_omap.
  apply exist_proper. intros item. apply and_iff_compat_l.
  unfold PyStr.truthy. destruct (Target item) as [[|a s]|]; simpl; split;
    try done; try (by intros [= <-]); try (by intros [[= <-] ?]).
Qed.

Lemma service_networks_match_spec current desired :
  service_networks_match current desired = true
  <-> same_targets current desired.
Proof.
  unfold service_networks_match, same_targets.
  rewrite bool_decide_eq_true, set_eq.
  apply forall_proper. intros t. by rewrite !extract_targets_spec.
Qed.

Lemma build_desired_labels_keys A :
  (build_desired_labels A).1.*1 = (default [] (labelsSwarm A)).*1.
Proof.
  unfold build_desired_labels.
  destruct (find_primary_domain _ _) as [d|]; [|done].
  destruct (PyStr.truthy (host d)); [|done]. simpl.
  rewrite <-list_fmap_compose. apply list_fmap_ext.
  intros _ [k v] _. simpl. by destruct (is_host_rule k v).
Qed.

Lemma build_desired_labels_wf A :
  dict_wf (default [] (labelsSwarm A)) -> dict_wf (build_desired_labels A).1.
Proof. unfold dict_wf. by rewrite build_desired_labels_keys. Qed.

(** ** [reconcile_application] *)

Lemma uc_networks_default (networks : list network_attachment) :
  default [] (match networks with [] => None | _ => Some networks end)
  = networks.
Proof. by destruct networks. Qed.

(** What a call that was issued looks like, and when it is issued. *)
Lemma issued_call_fields self api A S call :
  issued_call (reconcile_application self api A S) = Some call ->
  let desired := (build_desired_labels A).1 in
  desired <> []
  ∧ needs_update self A S = true
  ∧ Version_Index S = Some (uc_version call)
  ∧ uc_name call = sv_name S
  ∧ uc_labels call = dict_update (current_labels S) desired
  ∧ (exists other1 other2,
       uc_task_template call
       = {| st_ContainerSpec :=
              Some {| csl_Labels :=
                        Some (dict_update (container_labels S) desired);
                      csl_other := other1 |};
            st_other := other2 |})
  ∧ default [] (uc_networks call) = build_desired_networks self A.
Proof.
  unfold reconcile_application, needs_update.
  fold (current_labels S) (current_networks S) (container_labels S).
  destruct (build_desired_labels A) as [desired changed]. cbn [fst].
  destruct desired as [|item desired]; [done|].
  destruct (negb _) eqn:Eneeds; [done|]. apply negb_false_iff in Eneeds.
  destruct (Version_Index S) as [version|]; [|done].
  assert (forall c : update_call,
            issued_call
              (match api c with
               | Ok _ =>
                   Updated c
                     (if changed
                      then Some {| wb_application_id := applicationId A;
                                   wb_labels := item :: desired;
                                   wb_networks := networkSwarm A |}
                      else None)
               | Raise (APIError msg) => UpdateFailed c (APIError msg)
               | Raise e => UpdateRaised c e
               end) = Some c) as Hissued.
  { intros c. by destruct (api c) as [|[]]. }
  rewrite Hissued. intros [= <-]. cbn.
  repeat split; try done.
  - by eexists _, _.
  - apply uc_networks_default.
Qed.

Lemma updated_is_issued o call wb :
  o = Updated call wb -> issued_call o = Some call.
Proof. by intros ->. Qed.

(** A call is issued as soon as there are desired labels, a version index
    and a difference, whatever the engine answers. *)
Lemma call_is_issued self api A S version :
  (build_desired_labels A).1 <> [] ->
  needs_update self A S = true ->
  Version_Index S = Some version ->
  is_Some (issued_call (reconcile_application self api A S)).
Proof.
  unfold reconcile_application, needs_update.
  fold (current_labels S) (current_networks S) (container_labels S).
  destruct (build_desired_labels A) as [desired changed]. cbn [fst].
  intros Hne Hneeds ->. destruct desired as [|item desired]; [done|].
  rewrite Hneeds. cbn [negb]. by destruct (api _) as [|[]].
Qed.

(** When nothing differs the run ends at the second return, whatever the
    version index and the engine. *)
Lemma aligned_when_no_difference self api A S :
  (build_desired_labels A).1 <> [] ->
  needs_update self A S = false ->
  reconcile_application self api A S = Aligned.
Proof.
  unfold reconcile_application, needs_update.
  fold (current_labels S) (current_networks S) (container_labels S).
  destruct (build_desired_labels A) as [desired changed]. cbn [fst].
  intros Hne Hneeds. destruct desired as [|item desired]; [done|].
  by rewrite Hneeds.
Qed.

Lemma needs_update_spec self A S :
  needs_update self A S = true
  <-> ~ labels_superset (current_labels S) (build_desired_labels A).1
      ∨ ~ labels_superset (container_labels S) (build_desired_labels A).1
      ∨ ~ same_targets (current_networks S) (build_desired_networks self A).
Proof.
  unfold needs_update.
  rewrite !orb_true_iff, !negb_true_iff, <-!not_true_iff_false.
  rewrite !service_labels_match_spec, service_networks_match_spec. tauto.
Qed.

Lemma aligned_fields self api A S :
  reconcile_application self api A S = Aligned ->
  (build_desired_labels A).1 <> [] ∧ needs_update self A S = false.
Proof.
  unfold reconcile_application, needs_update.
  fold (current_labels S) (current_networks S) (container_labels S).
  destruct (build_desired_labels A) as [desired changed]. cbn [fst].
  destruct desired as [|item desired]; [done|].
  destruct (negb _) eqn:Eneeds.
  - apply negb_true_iff in Eneeds. by rewrite Eneeds.
  - destruct (Version_Index S); [|done]. by destruct (api _) as [|[]].
Qed.

(** C2: after a successful update the service-level labels are the current
    labels overridden by the desired ones, hence they include the desired
    mapping; on a dictionary (distinct keys) every desired pair is in
    them. *)
Theorem update_labels_superset self api A S call wb :
  reconcile_application self api A S = Updated call wb ->
  let desired := (build_desired_labels A).1 in
  let S' := service_after (reconcile_application self api A S) S in
  current_labels S' = as_map desired ∪ current_labels S
  ∧ as_map desired ⊆ current_labels S'
  ∧ (dict_wf (default [] (labelsSwarm A)) ->
     labels_superset (current_labels S') desired).
Proof.
  intros Hrun. cbn zeta. rewrite Hrun.
  apply updated_is_issued, issued_call_fields in Hrun
    as (_ & _ & _ & _ & Hlabels & _).
  cbn [service_after apply_update current_labels sv_Labels default].
  rewrite Hlabels. split; [apply dict_update_union|]. split.
  - rewrite dict_update_union. apply map_union_subseteq_l.
  - intros Hwf. by apply labels_superset_update, build_desired_labels_wf.
Qed.

(** The drifted rule of the sample service is rewritten, and its other
    label is kept. *)
Lemma update_labels_superset_witness :
  let S' :=
    service_after
      (reconcile_application sample_reconciler accepting_engine
                             blog_application blog_service)
      blog_service in
  current_labels S' !! "traefik.http.routers.blog.rule"
  = Some "Host(`new.example.com`)"
  ∧ current_labels S' !! "autoswarm.managed" = Some "true".
Proof.
  destruct (update_labels_superset sample_reconciler accepting_engine
              blog_application blog_service _ _ eq_refl)
    as (Heq & _ & _).
  cbn zeta. rewrite Heq. split; reflexivity.
Defined.

(** C3: reconciliation is idempotent.  When a run updates the service, or
    decides that nothing changes, a further run for the same application on
    the resulting service decides that nothing changes and issues no call,
    whatever the engine would answer. *)
Theorem reconcile_idempotent self api api' A S :
  dict_wf (default [] (labelsSwarm A)) ->
  let o := reconcile_application self api A S in
  (o = Aligned ∨ exists call wb, o = Updated call wb) ->
  reconcile_application self api' A (service_after o S) = Aligned
  ∧ issued_call (reconcile_application self api' A (service_after o S)) = None.
Proof.
  intros Hwf o Hrun.
  assert (reconcile_application self api' A (service_after o S) = Aligned)
    as ->; [|done].
  destruct Hrun as [Haligned|(call & wb & Hupdated)]; subst o.
  - rewrite Haligned. cbn [service_after].
    apply aligned_fields in Haligned as [Hne Hneeds].
    by apply aligned_when_no_difference.
  - rewrite Hupdated. cbn [service_after].
    apply updated_is_issued, issued_call_fields in Hupdated
      as (Hne & _ & _ & _ & Hlabels & (o1 & o2 & Htemplate) & Hnetworks).
    apply aligned_when_no_difference; [done|].
    apply build_desired_labels_wf in Hwf.
    unfold needs_update, current_labels, current_networks, container_labels.
    cbn [apply_update sv_Labels sv_Networks sv_TaskTemplate default].
    rewrite Hlabels, Htemplate, Hnetworks.
    cbn [st_ContainerSpec csl_Labels default].
    rewrite !(proj2 (service_labels_match_spec _ _))
      by by apply labels_superset_update.
    unfold service_networks_match. by rewrite bool_decide_eq_true_2.
Qed.

(** A second run on the updated sample service changes nothing. *)
Lemma reconcile_idempotent_witness :
  reconcile_application sample_reconciler accepting_engine blog_application
    (service_after
       (reconcile_application sample_reconciler accepting_engine
                              blog_application blog_service)
       blog_service)
  = Aligned.
Proof.
  refine (proj1 (reconcile_idempotent sample_reconciler accepting_engine
                   accepting_engine blog_application blog_service _ _)).
  - apply (bool_decide_unpack _). by vm_compute.
  - right. by eexists _, _.
Defined.

(** C4: a call to [update_service] is issued exactly when the desired
    labels are not empty, the service has a version index, and the service
    labels or the container labels do not include the desired pairs or the
    target sets differ; when no call is issued the service is as before. *)
Theorem update_issued_iff self api A S :
  let desired := (build_desired_labels A).1 in
  let o := reconcile_application self api A S in
  (is_Some (issued_call o)
   <-> desired <> []
       ∧ is_Some (Version_Index S)
       ∧ (~ labels_superset (current_labels S) desired
          ∨ ~ labels_superset (container_labels S) desired
          ∨ ~ same_targets (current_networks S)
                           (build_desired_networks self A)))
  ∧ (issued_call o = None -> service_after o S = S).
Proof.
  cbn zeta. rewrite <-needs_update_spec. split.
  - split.
    + intros [call Hcall]. apply issued_call_fields in Hcall
        as (Hne & Hneeds & Hversion & _). by rewrite Hversion.
    + intros (Hne & [version Hversion] & Hneeds). by eapply call_is_issued.
  - by destruct (reconcile_application self api A S).
Qed.

(** The drifted sample service gets an update call. *)
Lemma update_issued_iff_witness :
  is_Some (issued_call
             (reconcile_application sample_reconciler accepting_engine
                                    blog_application blog_service))
  ∧ service_after MissingVersion blog_service = blog_service.
Proof.
  split.
  - apply (proj2 (proj1 (update_issued_iff sample_reconciler accepting_engine
                             blog_application blog_service))).
    split; [done|]. split; [by eexists|]. left. intros Hsup.
    specialize (Hsup "traefik.http.routers.blog.rule"
                     "Host(`new.example.com`)").
    discriminate Hsup. apply (bool_decide_unpack _). by vm_compute.
  - reflexivity.
Defined.

(** * Further properties of the translator *)

(** ** [collect_mounts] *)

(** Every translated mount has a target and a source that are not empty,
    comes from a mount of the container, and carries bind options exactly
    when it is a bind mount. *)
Theorem collect_mounts_invariant C ms :
  ms ∈ collect_mounts C ->
  ms_Target ms <> EmptyString
  ∧ ms_Source ms <> EmptyString
  ∧ (is_Some (ms_BindOptions ms) <-> ms_Type ms = Some "bind")
  ∧ exists m, m ∈ default [] (Mounts C) ∧ mount_of m ms.
Proof.
  unfold collect_mounts. intros (m & Hm & Hms)%list_elem_of_omap.
  unfold translate_mount in Hms.
  destruct (m_Destination m) as [target|] eqn:Et; [|done].
  destruct (m_Source m) as [source|] eqn:Es; [|done].
  destruct (PyStr.is_empty target) eqn:Het; [done|].
  destruct (PyStr.is_empty source) eqn:Hes; [done|].
  injection Hms as <-. cbn.
  split; [by apply is_empty_false|]. split; [by apply is_empty_false|].
  split.
  - destruct (decide (m_Type m = Some "bind")) as [->|Hne]; split;
      try done; try (by eexists); by intros [? ?].
  - exists m. split; [done|]. unfold mount_of. cbn. by rewrite Et, Es.
Qed.

(** The bind mount of the sample container is translated. *)
Lemma collect_mounts_invariant_witness :
  exists m, m ∈ default [] (Mounts web_attrs)
            ∧ mount_of m {| ms_Target := "/data"; ms_Source := "/srv/web";
                            ms_Type := Some "bind"; ms_ReadOnly := false;
                            ms_BindOptions := Some "rprivate" |}.
Proof.
  apply (collect_mounts_invariant web_attrs). apply list_elem_of_here.
Defined.

(** ** More on [collect_ports] *)

Lemma publish_mode_host b :
  PyStr.truthy (HostIp b)
  && negb (String.eqb (default EmptyString (HostIp b)) "0.0.0.0") = true
  <-> host_published b.
Proof.
  unfold host_published. destruct (HostIp b) as [ip|]; cbn [default].
  - rewrite andb_true_iff, negb_true_iff, String.eqb_neq.
    unfold PyStr.truthy. rewrite negb_true_iff, is_empty_false. split.
    + intros [? ?]. by exists ip.
    + by intros (? & [= <-] & ? & ?).
  - split; [done|]. by intros (? & ? & _).
Qed.

Lemma collect_bindings_sound proto target_port bindings ports p :
  collect_bindings proto target_port bindings = Ok ports ->
  p ∈ ports ->
  Protocol p = proto ∧ TargetPort p = target_port
  ∧ exists b host_port,
      b ∈ bindings
      ∧ HostPort b = Some host_port
      ∧ host_port <> EmptyString
      ∧ PyInt.parse host_port = Some (PublishedPort p)
      ∧ (PublishMode p = "host" ∧ host_published b
         ∨ PublishMode p = "ingress" ∧ ~ host_published b).
Proof.
  revert ports. induction bindings as [|b bs IH]; intros ports; simpl.
  - intros [= <-] Hin. by apply elem_of_nil in Hin.
  - destruct (PyStr.truthy (HostPort b)) eqn:Et.
    + intros (z & Hz%int_ok & (ps & Hps & [= <-])%bind_ok)%bind_ok.
      intros [->|Hin]%elem_of_cons.
      * cbn [Protocol TargetPort PublishedPort PublishMode].
        split; [done|]. split; [done|].
        destruct (HostPort b) as [hp|] eqn:Ehp; [|done].
        exists b, hp. split; [left|]. split; [done|].
        split; [by apply is_empty_false, negb_true_iff|].
        split; [done|].
        destruct (PyStr.truthy (HostIp b) && _) eqn:Emode.
        -- left. split; [done|]. by apply publish_mode_host.
        -- right. split; [done|]. rewrite <-publish_mode_host. congruence.
      * destruct (IH _ Hps Hin) as (? & ? & b' & hp & Hb' & H).
        split; [done|]. split; [done|]. exists b', hp. split; [by right|done].
    + intros Hps Hin. destruct (IH _ Hps Hin) as (? & ? & b' & hp & Hb' & H).
      split; [done|]. split; [done|]. exists b', hp. split; [by right|done].
Qed.

(** Every port publication that [collect_ports] returns is the translation
    of one binding of the container: protocol and target port come from its
    key, the published port from its [HostPort], and the mode is ["host"]
    exactly when the binding names a host address other than [0.0.0.0]. *)
Theorem collect_ports_sound C ports p :
  collect_ports C = Ok ports ->
  p ∈ ports ->
  exists key bindings b,
    (key, bindings) ∈ source_port_bindings C
    ∧ b ∈ default [] bindings
    ∧ port_of_binding key b p.
Proof.
  unfold collect_ports. fold (source_port_bindings C).
  generalize (source_port_bindings C) as port_bindings.
  intros port_bindings. revert ports.
  induction port_bindings as [|[key bindings] rest IH]; intros ports;
    cbn [collect_port_bindings].
  - intros [= <-] Hin. by apply elem_of_nil in Hin.
  - assert (forall ports', collect_port_bindings rest = Ok ports' ->
              p ∈ ports' ->
              exists key' bindings' b,
                (key', bindings') ∈ (key, bindings) :: rest
                ∧ b ∈ default [] bindings' ∧ port_of_binding key' b p)
      as Hrest.
    { intros ports' Hok Hin.
      destruct (IH _ Hok Hin) as (key' & bindings' & b & Hk & H).
      exists key', bindings', b. split; [by right|done]. }
    destruct (default [] bindings) as [|b0 bs] eqn:Eb; [exact (Hrest ports)|].
    cbv beta iota. remember (b0 :: bs) as bound eqn:Ebound.
    intros ([pp proto] & Hkey%unpack_port_proto_ok & H)%bind_ok.
    apply bind_ok in H as (z & Hz%int_ok & H).
    apply bind_ok in H as (ps & Hps & H).
    apply bind_ok in H as (more & Hmore & [= <-]).
    intros [Hin|Hin]%elem_of_app; [|by eapply Hrest].
    destruct (collect_bindings_sound _ _ _ _ _ Hps Hin)
      as (Hproto & Htarget & b & hp & Hb & Hhp & Hne & Hparse & Hmode).
    exists key, bindings, b. split; [left|]. rewrite Eb. split; [done|].
    exists pp, hp. by rewrite Hproto, Htarget.
Qed.

(** The port of the sample container comes from its only binding. *)
Lemma collect_ports_sound_witness :
  exists key bindings b,
    (key, bindings) ∈ source_port_bindings web_attrs
    ∧ b ∈ default [] bindings
    ∧ port_of_binding key b
        {| Protocol := "tcp"; TargetPort := 80; PublishedPort := 8080;
           PublishMode := "ingress" |}.
Proof.
  apply (collect_ports_sound web_attrs _ _ eq_refl). apply list_elem_of_here.
Defined.

Lemma collect_bindings_length proto target_port bindings ports :
  collect_bindings proto target_port bindings = Ok ports ->
  length ports
  = length (filter (fun b => PyStr.truthy (HostPort b) = true) bindings).
Proof.
  revert ports. induction bindings as [|b bs IH]; intros ports; simpl.
  - by intros [= <-].
  - rewrite filter_cons. destruct (PyStr.truthy (HostPort b)) eqn:Et.
    + intros (z & _ & (ps & Hps & [= <-])%bind_ok)%bind_ok.
      rewrite decide_True by done. simpl. by rewrite (IH ps).
    + intros Hps. rewrite decide_False by done. by apply IH.
Qed.

(** When [collect_ports] returns, it returns one publication for each
    binding that names a host port, and nothing else. *)
Theorem collect_ports_length C ports :
  collect_ports C = Ok ports ->
  length ports = published_count (source_port_bindings C).
Proof.
  unfold collect_ports, published_count. fold (source_port_bindings C).
  generalize (source_port_bindings C) as port_bindings.
  intros port_bindings. revert ports.
  induction port_bindings as [|[key bindings] rest IH]; intros ports;
    cbn [collect_port_bindings].
  - by intros [= <-].
  - rewrite fmap_cons. cbn [sum_list snd].
    destruct (default [] bindings) as [|b0 bs] eqn:Eb.
    { intros H. by rewrite (IH _ H). }
    cbv beta iota. remember (b0 :: bs) as bound eqn:Ebound.
    intros ([pp proto] & _ & H)%bind_ok.
    apply bind_ok in H as (z & _ & H).
    apply bind_ok in H as (ps & Hps%collect_bindings_length & H).
    apply bind_ok in H as (more & Hmore & [= <-]).
    by rewrite length_app, Hps, (IH _ Hmore).
Qed.

(** The sample container has one published binding and one port. *)
Lemma collect_ports_length_witness :
  published_count (source_port_bindings web_attrs) = 1.
Proof.
  by rewrite <-(collect_ports_length web_attrs _ eq_refl).
Defined.

(** ** [collect_networks] *)

Lemma existing_networks_lookup self name net :
  existing_networks self !! name = Some net ->
  net ∈ networks_list self ∧ net_name net = name.
Proof.
  unfold existing_networks.
  induction (networks_list self) as [|n l IH] using rev_ind.
  - simpl. by rewrite lookup_empty.
  - rewrite foldl_app. simpl.
    destruct (decide (net_name n = name)) as [<-|Hne].
    + rewrite lookup_insert_eq. intros [= <-].
      split; [|done]. apply elem_of_app. right. apply list_elem_of_here.
    + rewrite lookup_insert_ne by done. intros [? ?]%IH.
      split; [|done]. apply elem_of_app. by left.
Qed.

Lemma elem_of_overlay_names C name :
  name ∈ overlay_names C
  <-> name = TRAEFIK_NETWORK_NAME
      ∨ (name ∈ default [] (Networks C) ∧ name ∉ ["bridge"; "host"; "none"]).
Proof.
  unfold overlay_names. cbn [TRAEFIK_NETWORK_NAME PyStr.is_empty].
  rewrite elem_of_union, elem_of_singleton, elem_of_list_to_set,
    list_elem_of_filter.
  tauto.
Qed.

(** Every attachment the translator emits targets an overlay network that
    the engine lists, and that network is the ingress overlay or one the
    container is attached to, other than [bridge], [host] and [none]. *)
Theorem collect_networks_sound self C n :
  n ∈ collect_networks self C ->
  exists net,
    net ∈ networks_list self
    ∧ net_Driver net = Some "overlay"
    ∧ n = {| Target := Some (net_id net); Aliases := None |}
    ∧ (net_name net = "traefik-public"
       ∨ (net_name net ∈ default [] (Networks C)
          ∧ net_name net ∉ ["bridge"; "host"; "none"])).
Proof.
  unfold collect_networks.
  intros (name & Hname%elem_of_elements & Hn)%list_elem_of_omap.
  destruct (existing_networks self !! name) as [net|] eqn:Enet; [|done].
  destruct (decide (net_Driver net = Some "overlay")) as [Hd|]; [|done].
  injection Hn as <-.
  apply existing_networks_lookup in Enet as [Hin <-].
  exists net. split; [done|]. split; [done|]. split; [done|].
  by apply elem_of_overlay_names.
Qed.

(** The only network the sample container gets is the ingress overlay. *)
Lemma collect_networks_sound_witness :
  exists net,
    net ∈ networks_list sample_manager
    ∧ net_Driver net = Some "overlay"
    ∧ {| Target := Some "tp1"; Aliases := None |}
      = {| Target := Some (net_id net); Aliases := None |}
    ∧ (net_name net = "traefik-public"
       ∨ (net_name net ∈ default [] (Networks web_attrs)
          ∧ net_name net ∉ ["bridge"; "host"; "none"])).
Proof.
  apply (collect_networks_sound sample_manager web_attrs).
  assert (collect_networks sample_manager web_attrs
          = [{| Target := Some "tp1"; Aliases := None |}]) as ->
    by (vm_compute; reflexivity).
  apply list_elem_of_here.
Defined.



(** ** More on [build_service_spec] *)

Lemma nonempty_str_ne o : nonempty_str o <> Some EmptyString.
Proof. by destruct o as [[|a s]|]. Qed.

Lemma nonempty_list_ne {A} (o : option (list A)) : nonempty_list o <> Some [].
Proof. by destruct o as [[|a l]|]. Qed.

(** The translated spec is minimal: the container spec has no key with an
    empty value (a [TTY] key only when it is true), and the networks and
    the endpoint ports are left out rather than empty. *)
Theorem build_service_spec_minimal self C spec :
  build_service_spec self C = Ok spec ->
  no_empty_value (ContainerSpec (TaskTemplate spec))
  ∧ s_Networks spec <> Some []
  ∧ EndpointSpec spec <> Some [].
Proof.
  unfold build_service_spec.
  intros (ports & _ & [= <-])%bind_ok.
  cbn [TaskTemplate ContainerSpec s_Networks EndpointSpec].
  split; [|split].
  - unfold no_empty_value.
    cbn [cs_Image cs_Env cs_User cs_Dir cs_Command cs_Args cs_Mounts cs_TTY].
    repeat split;
      first [apply nonempty_str_ne | apply nonempty_list_ne | idtac].
    + by destruct (collect_mounts C).
    + by destruct (default false (Tty (default empty_config (Config C)))).
  - by destruct (collect_networks self C).
  - by destruct ports.
Qed.

(** The sample container has an empty user and an empty command: both are
    left out. *)
Lemma build_service_spec_minimal_witness :
  exists spec,
    build_service_spec sample_manager web_attrs = Ok spec
    ∧ no_empty_value (ContainerSpec (TaskTemplate spec)).
Proof.
  eexists. split; [reflexivity|].
  exact (proj1 (build_service_spec_minimal sample_manager web_attrs _ eq_refl)).
Defined.

(** ** [create_service_from_container] and [initial_sweep] *)

Lemma should_ignore_spec labels :
  should_ignore (Some labels) = true <-> has_ignore_label labels.
Proof.
  unfold should_ignore, has_ignore_label.
  destruct (decide (labels = ∅)) as [->|_].
  - rewrite lookup_empty. split; [done|]. by intros (? & ? & _).
  - rewrite String.eqb_eq. destruct (labels !! IGNORED_LABEL) as [v|] eqn:E;
      unfold IGNORED_LABEL in E; rewrite E; cbn [default]; split.
    + intros H. by exists v.
    + by intros (? & [= <-] & ?).
    + done.
    + by intros (? & ? & _).
Qed.

Lemma is_swarm_container_spec labels :
  is_swarm_container (Some labels) = true <-> has_swarm_label labels.
Proof.
  unfold is_swarm_container, has_swarm_label.
  destruct (decide (labels = ∅)) as [->|_].
  - rewrite !lookup_empty. split; [done|].
    by intros [[? ?]|[[? ?]|[[? ?]|[? ?]]]].
  - cbn [existsb]. rewrite !orb_true_iff, !bool_decide_eq_true.
    unfold MANAGED_LABEL. intuition discriminate.
Qed.

Lemma passed_over_spec c :
  passed_over c ->
  is_swarm_container (config_labels (ct_attrs c))
  || should_ignore (config_labels (ct_attrs c)) = true.
Proof.
  intros (labels & -> & H). apply orb_true_iff.
  rewrite is_swarm_container_spec, should_ignore_spec. tauto.
Qed.

Lemma passed_over_iff c :
  passed_over c
  <-> is_swarm_container (config_labels (ct_attrs c))
      || should_ignore (config_labels (ct_attrs c)) = true.
Proof.
  split; [apply passed_over_spec|]. unfold passed_over.
  destruct (config_labels (ct_attrs c)) as [labels|]; [|done].
  rewrite orb_true_iff, is_swarm_container_spec, should_ignore_spec.
  intros H. by exists labels.
Qed.

Lemma build_service_spec_name self C spec :
  build_service_spec self C = Ok spec -> s_Name spec = derive_service_name C.
Proof. unfold build_service_spec. by intros (ports & _ & [= <-])%bind_ok. Qed.

(** A container that carries a label of the cluster or of this agent, or
    the ignore label set to true in any letter case, is not converted: no
    call reaches the engine and the empty name is returned. *)
Theorem conversion_passes_over self eng trace container_id c :
  containers_get eng trace container_id = Some c ->
  passed_over c ->
  create_service_from_container self eng trace container_id
  = (trace, Ok EmptyString).
Proof.
  intros Hget [H1|H2]%passed_over_spec%orb_true_iff;
    unfold create_service_from_container; rewrite Hget.
  - rewrite H1. by destruct (should_ignore _).
  - by rewrite H2.
Qed.

(** A container that carries the marker of the agent is passed over. *)
Lemma conversion_passes_over_witness :
  create_service_from_container sample_manager
    {| containers_list := fun _ => [managed_container];
       containers_get := fun _ _ => Some managed_container;
       engine_networks := fun _ => [];
       engine_answer := fun _ _ => Ok tt |}
    [] "77aa"
  = ([], Ok EmptyString).
Proof.
  apply (conversion_passes_over _ _ _ _ managed_container); [done|].
  eexists. split; [reflexivity|]. left. do 3 right. by eexists.
Defined.

Lemma answer_cases (answer : result unit) :
  goes_on answer ∨ exists e, raises_uncaught answer e.
Proof.
  destruct answer as [[]|e]; [left; by left|].
  destruct e; try (right; eexists; by split);
    left; right; by eexists.
Qed.

Lemma goes_on_best_effort eng trace call :
  goes_on (engine_answer eng trace call) ->
  best_effort eng trace call = (app trace [call], None).
Proof.
  unfold best_effort. by intros [-> | [msg ->]].
Qed.

Lemma raises_uncaught_best_effort eng trace call e :
  raises_uncaught (engine_answer eng trace call) e ->
  best_effort eng trace call = (app trace [call], Some e).
Proof.
  unfold best_effort. intros [-> Hne]. destruct e; try done.
  by destruct (Hne msg).
Qed.

(** The calls of one conversion, with its result.  No call is made when
    the container is not found or is passed over (the empty name is
    returned) or when its spec cannot be built (the exception leaves the
    method).  Otherwise the service is created; when the engine refuses,
    nothing else is called; when it accepts, the container is stopped and,
    unless the stop raised an exception that is not caught, removed. *)
Theorem conversion_calls self eng trace container_id trace' r :
  create_service_from_container self eng trace container_id = (trace', r) ->
  (containers_get eng trace container_id = None
   ∧ trace' = trace ∧ r = Ok EmptyString)
  ∨ exists c,
      containers_get eng trace container_id = Some c
      ∧ (passed_over c ∧ trace' = trace ∧ r = Ok EmptyString
         ∨ ~ passed_over c
           ∧ ((exists e,
                 build_service_spec (manager_at self eng trace) (ct_attrs c)
                 = Raise e
                 ∧ trace' = trace ∧ r = Raise e)
              ∨ exists spec calls,
                  build_service_spec (manager_at self eng trace) (ct_attrs c)
                  = Ok spec
                  ∧ trace' = app trace calls
                  ∧ conversion_calls_of eng trace c spec calls r)).
Proof.
  unfold create_service_from_container.
  destruct (containers_get eng trace container_id) as [c|];
    [|intros [= <- <-]; by left].
  intros H. right. exists c. split; [done|].
  destruct (is_swarm_container (config_labels (ct_attrs c))
            || should_ignore (config_labels (ct_attrs c))) eqn:Hpass.
  - left. split; [by apply passed_over_iff|].
    apply orb_true_iff in Hpass as [Hs|Hi].
    + rewrite Hs in H. destruct (should_ignore _); by injection H as <- <-.
    + rewrite Hi in H. by injection H as <- <-.
  - right. split; [rewrite passed_over_iff; congruence|].
    apply orb_false_iff in Hpass as [Hs Hi]. rewrite Hi, Hs in H.
    destruct (build_service_spec _ _) as [spec|e];
      [|left; exists e; by injection H as <- <-].
    right. exists spec. unfold conversion_calls_of. cbv zeta.
    destruct (engine_answer eng trace (CreateService spec)) as [[]|e]
      eqn:Ecreate.
    + destruct (answer_cases
                  (engine_answer eng (app trace [CreateService spec])
                     (StopContainer (ct_id c) 5))) as [Hstop|[e Hstop]].
      * rewrite (goes_on_best_effort _ _ _ Hstop) in H.
        exists [CreateService spec; StopContainer (ct_id c) 5;
                RemoveContainer (ct_id c)].
        rewrite <-(assoc_L app) in H. cbn [app] in H.
        destruct (answer_cases
                    (engine_answer eng
                       (app trace [CreateService spec;
                                   StopContainer (ct_id c) 5])
                       (RemoveContainer (ct_id c)))) as [Hrm|[e Hrm]].
        -- rewrite (goes_on_best_effort _ _ _ Hrm) in H.
           rewrite <-(assoc_L app) in H. injection H as <- <-.
           split; [done|]. split; [done|]. right. split; [done|].
           right. split; [done|]. split; [done|]. by left.
        -- rewrite (raises_uncaught_best_effort _ _ _ _ Hrm) in H.
           rewrite <-(assoc_L app) in H. injection H as <- <-.
           split; [done|]. split; [done|]. right. split; [done|].
           right. split; [done|]. split; [done|]. right. by exists e.
      * rewrite (raises_uncaught_best_effort _ _ _ _ Hstop) in H.
        rewrite <-(assoc_L app) in H. injection H as <- <-.
        exists [CreateService spec; StopContainer (ct_id c) 5].
        split; [done|]. split; [done|]. right. split; [done|].
        left. split; [done|]. by exists e.
    + exists [CreateService spec]. split; [done|].
      destruct (answer_cases (Raise e : result unit))
        as [[[=]|[msg [= ->]]]|[e' [[= <-] Hne]]].
      * injection H as <- <-. split; [done|]. left. split; [done|].
        left. split; [by exists msg|done].
      * assert (trace' = app trace [CreateService spec] ∧ r = Raise e)
          as [-> ->].
        { destruct e; try (by injection H as <- <-). by destruct (Hne msg). }
        split; [done|]. left. split; [done|]. right. by exists e.
Qed.

(** The sample container is created, stopped and removed, in this order. *)
Lemma conversion_calls_witness :
  exists spec,
    build_service_spec sample_manager web_attrs = Ok spec
    ∧ create_service_from_container sample_manager sample_engine []
        "3f4e8a1b9c0d7e6f5a4b"
      = ([CreateService spec; StopContainer "3f4e8a1b9c0d7e6f5a4b" 5;
          RemoveContainer "3f4e8a1b9c0d7e6f5a4b"], Ok "web").
Proof.
  eexists. split; [reflexivity|].
  destruct (conversion_calls sample_manager sample_engine []
              "3f4e8a1b9c0d7e6f5a4b" _ _ eq_refl) as [_|_]; reflexivity.
Defined.

(** A name that is not empty is returned only when the service was created
    and the container stopped and removed: it is the derived name of the
    container, and the three calls were made in this order. *)
Theorem conversion_returns_name self eng trace container_id trace' name :
  create_service_from_container self eng trace container_id
  = (trace', Ok name) ->
  name <> EmptyString ->
  exists c spec,
    containers_get eng trace container_id = Some c
    ∧ build_service_spec (manager_at self eng trace) (ct_attrs c) = Ok spec
    ∧ name = derive_service_name (ct_attrs c)
    ∧ engine_answer eng trace (CreateService spec) = Ok tt
    ∧ trace' = app trace [CreateService spec; StopContainer (ct_id c) 5;
                          RemoveContainer (ct_id c)].
Proof.
  unfold create_service_from_container, best_effort.
  destruct (containers_get eng trace container_id) as [c|]; [|congruence].
  destruct (should_ignore _); [congruence|].
  destruct (is_swarm_container _); [congruence|].
  destruct (build_service_spec _ _) as [spec|e] eqn:Espec; [|congruence].
  destruct (engine_answer eng trace (CreateService spec)) as [[]|e]
    eqn:Ecreate; [|destruct e; congruence].
  intros H Hname. exists c, spec. split; [done|]. split; [done|].
  assert (name = s_Name spec
          ∧ trace' = app (app (app trace [CreateService spec])
                                  [StopContainer (ct_id c) 5])
                             [RemoveContainer (ct_id c)]) as [-> ->].
  { destruct (engine_answer eng _ (StopContainer (ct_id c) 5)) as [ | [] ];
      try discriminate H;
      destruct (engine_answer eng _ (RemoveContainer (ct_id c))) as [ | [] ];
      try discriminate H; by injection H as <- <-. }
  split; [by apply build_service_spec_name in Espec|]. split; [done|].
  by rewrite <-!(assoc_L app).
Qed.

(** The conversion of the sample container returns ["web"]. *)
Lemma conversion_returns_name_witness :
  exists c spec,
    containers_get sample_engine [] "3f4e8a1b9c0d7e6f5a4b" = Some c
    ∧ build_service_spec (manager_at sample_manager sample_engine [])
                         (ct_attrs c) = Ok spec
    ∧ "web" = derive_service_name (ct_attrs c)
    ∧ engine_answer sample_engine [] (CreateService spec) = Ok tt
    ∧ (create_service_from_container sample_manager sample_engine []
         "3f4e8a1b9c0d7e6f5a4b").1
      = app [] [CreateService spec; StopContainer (ct_id c) 5;
                RemoveContainer (ct_id c)].
Proof.
  by apply (conversion_returns_name sample_manager sample_engine []
              "3f4e8a1b9c0d7e6f5a4b").
Defined.

(** When every listed container is passed over, the initial sweep makes no
    call at all. *)
Theorem sweep_passes_over self eng trace :
  Forall passed_over (containers_list eng trace) ->
  initial_sweep self eng trace = (trace, Ok tt).
Proof.
  unfold initial_sweep. induction 1 as [|c rest Hc _ IH]; [done|].
  cbn [sweep_containers]. by rewrite (passed_over_spec c Hc).
Qed.

(** A sweep over one managed container makes no call. *)
Lemma sweep_passes_over_witness :
  initial_sweep sample_manager
    {| containers_list := fun _ => [managed_container];
       containers_get := fun _ _ => Some managed_container;
       engine_networks := fun _ => [];
       engine_answer := fun _ _ => Ok tt |}
    []
  = ([], Ok tt).
Proof.
  apply sweep_passes_over. repeat constructor.
  eexists. split; [reflexivity|]. left. do 3 right. by eexists.
Defined.



(** * The event loop *)

Lemma handle_event_announced handled ev id :
  announces ev id ->
  id ∉ handled ->
  handle_event handled ev = ({[id]} ∪ handled, Some id).
Proof.
  intros (Htype & Haction & Hid & Hne) Hnew. unfold handle_event.
  rewrite bool_decide_eq_true_2 by done. cbn [negb].
  rewrite bool_decide_eq_true_2 by done. cbn [negb]. rewrite Hid.
  apply is_empty_false in Hne. rewrite Hne.
  by rewrite bool_decide_eq_false_2.
Qed.

Lemma handle_event_cases handled ev :
  handle_event handled ev = (handled, None)
  ∧ (forall id, announces ev id -> id ∈ handled)
  ∨ exists id, announces ev id ∧ (id ∉ handled)
               ∧ handle_event handled ev = ({[id]} ∪ handled, Some id).
Proof.
  destruct (decide (ev_Type ev = Some "container")) as [Htype|Htype];
    [|left; split; [|by intros ? (? & _)];
      unfold handle_event; by rewrite bool_decide_eq_false_2].
  destruct (decide (ev_Action ev = Some "create"
                    ∨ ev_Action ev = Some "start")) as [Haction|Haction];
    [|left; split; [|by intros ? (_ & ? & _)]; unfold handle_event;
      rewrite bool_decide_eq_true_2 by done;
      by rewrite bool_decide_eq_false_2 by done].
  destruct (ev_id ev) as [id|] eqn:Eid;
    [|left; split; [|intros ? (_ & _ & ? & _); congruence];
      unfold handle_event; rewrite !bool_decide_eq_true_2 by done;
      by rewrite Eid].
  destruct (decide (id = EmptyString)) as [->|Hne];
    [left; split; [|intros ? (_ & _ & ? & ?); congruence];
     unfold handle_event; rewrite !bool_decide_eq_true_2 by done;
     by rewrite Eid|].
  destruct (decide (id ∈ handled)) as [Hin|Hnew].
  - left. split; [|intros ? (_ & _ & ? & _); congruence].
    unfold handle_event. rewrite !bool_decide_eq_true_2 by done.
    rewrite Eid. cbn [negb]. rewrite (bool_decide_eq_true_2 _ Hin).
    by rewrite orb_true_r.
  - right. exists id. split; [done|]. split; [done|].
    by apply handle_event_announced.
Qed.

(** The callback is started at most once for a container: the containers
    started by the loop are pairwise distinct, they are exactly those that
    were not handled before and that some event announces (a container
    event, of action [create] or [start], with an identifier that is not
    empty), and the set of handled containers grows by exactly them. *)
Theorem event_loop_dispatch handled events :
  let '(handled', started) := event_loop handled events in
  NoDup started
  ∧ handled' = list_to_set started ∪ handled
  ∧ forall id, id ∈ started
               <-> (id ∉ handled) ∧ exists ev, ev ∈ events ∧ announces ev id.
Proof.
  revert handled. induction events as [|ev rest IH]; intros handled.
  - cbn. split; [constructor|].
    split; [by rewrite (left_id_L ∅ (∪))|].
    intros id. split; [by intros ?%elem_of_nil|].
    by intros (_ & ? & ?%elem_of_nil & _).
  - cbn [event_loop].
    destruct (handle_event_cases handled ev)
      as [[-> Hnone]|(id0 & Hev & Hnew & ->)].
    + specialize (IH handled).
      destruct (event_loop handled rest) as [handled' more].
      destruct IH as (Hnodup & Hset & Hiff).
      change (app (option_list None) more) with more.
      split; [done|]. split; [done|]. intros id. rewrite Hiff. split.
      * intros (? & e & ? & ?). split; [done|]. exists e. by split; [right|].
      * intros (Hid & e & [->|?]%elem_of_cons & He).
        -- by apply Hnone in He.
        -- split; [done|]. by exists e.
    + specialize (IH ({[id0]} ∪ handled)).
      destruct (event_loop ({[id0]} ∪ handled) rest) as [handled' more].
      destruct IH as (Hnodup & Hset & Hiff).
      change (app (option_list (Some id0)) more) with (id0 :: more).
      split; [|split].
      * constructor; [|done]. rewrite Hiff. intros [Hnot _].
        apply Hnot, elem_of_union_l. by apply elem_of_singleton.
      * rewrite Hset, list_to_set_cons.
        by rewrite (assoc_L (∪)), (comm_L (∪) _ {[id0]}).
      * intros id. rewrite elem_of_cons, Hiff. split.
        -- intros [->|(Hid & e & ? & ?)].
           ++ split; [done|]. exists ev. by split; [left|].
           ++ split; [|exists e; by split; [right|]].
              intros ?. apply Hid. by apply elem_of_union_r.
        -- intros (Hid & e & [->|?]%elem_of_cons & He).
           ++ left. destruct Hev as (_ & _ & H0 & _).
              destruct He as (_ & _ & H1 & _). congruence.
           ++ destruct (decide (id = id0)) as [->|Hne]; [by left|].
              right. split; [|by exists e].
              intros [?%elem_of_singleton|?]%elem_of_union; done.
Qed.

(** Over the sample stretch the callback is started once for each of the
    two containers. *)
Lemma event_loop_dispatch_witness :
  (event_loop ∅ sample_events).2 = ["c1"; "c2"]
  ∧ NoDup (event_loop ∅ sample_events).2.
Proof.
  split; [reflexivity|].
  pose proof (event_loop_dispatch ∅ sample_events) as H.
  destruct (event_loop ∅ sample_events) as [handled started].
  exact (proj1 H).
Defined.

Lemma event_loop_app handled events1 events2 :
  event_loop handled (app events1 events2)
  = let '(handled1, started1) := event_loop handled events1 in
    let '(handled2, started2) := event_loop handled1 events2 in
    (handled2, app started1 started2).
Proof.
  revert handled. induction events1 as [|ev rest IH]; intros handled.
  - cbn. by destruct (event_loop handled events2).
  - cbn [event_loop app]. destruct (handle_event handled ev) as [h o].
    rewrite IH. destruct (event_loop h rest) as [h1 s1].
    destruct (event_loop h1 events2) as [h2 s2].
    by rewrite (assoc_L app).
Qed.

Lemma event_loop_runs_served handled subscriptions :
  event_loop_runs handled subscriptions
  = event_loop handled (mjoin (sub_events <$> served subscriptions)).
Proof.
  revert handled.
  induction subscriptions as [|sub rest IH]; intros handled; [done|].
  cbn [event_loop_runs served fmap list_fmap].
  change (mjoin (?l :: ?ls)) with (app l (mjoin ls)).
  rewrite event_loop_app.
  destruct (event_loop handled (sub_events sub)) as [h1 s1].
  destruct (sub_stop sub).
  - cbn. by rewrite (right_id_L [] app).
  - rewrite IH.
    by destruct (event_loop h1 (mjoin (sub_events <$> served rest))).
Qed.

Lemma event_loop_started handled events :
  let '(handled', started) := event_loop handled events in
  NoDup started
  ∧ handled' = list_to_set started ∪ handled
  ∧ forall id, id ∈ started
               <-> (id ∉ handled) ∧ exists ev, ev ∈ events ∧ announces ev id.
Proof.
  revert handled. induction events as [|ev rest IH]; intros handled.
  - cbn. split; [constructor|].
    split; [by rewrite (left_id_L ∅ (∪))|].
    intros id. split; [by intros ?%elem_of_nil|].
    by intros (_ & ? & ?%elem_of_nil & _).
  - cbn [event_loop].
    destruct (handle_event_cases handled ev)
      as [[-> Hnone]|(id0 & Hev & Hnew & ->)].
    + specialize (IH handled).
      destruct (event_loop handled rest) as [handled' more].
      destruct IH as (Hnodup & Hset & Hiff).
      change (app (option_list None) more) with more.
      split; [done|]. split; [done|]. intros id. rewrite Hiff. split.
      * intros (? & e & ? & ?). split; [done|]. exists e. by split; [right|].
      * intros (Hid & e & [->|?]%elem_of_cons & He).
        -- by apply Hnone in He.
        -- split; [done|]. by exists e.
    + specialize (IH ({[id0]} ∪ handled)).
      destruct (event_loop ({[id0]} ∪ handled) rest) as [handled' more].
      destruct IH as (Hnodup & Hset & Hiff).
      change (app (option_list (Some id0)) more) with (id0 :: more).
      split; [|split].
      * constructor; [|done]. rewrite Hiff. intros [Hnot _].
        apply Hnot, elem_of_union_l. by apply elem_of_singleton.
      * rewrite Hset, list_to_set_cons.
        by rewrite (assoc_L (∪)), (comm_L (∪) _ {[id0]}).
      * intros id. rewrite elem_of_cons, Hiff. split.
        -- intros [->|(Hid & e & ? & ?)].
           ++ split; [done|]. exists ev. by split; [left|].
           ++ split; [|exists e; by split; [right|]].
              intros ?. apply Hid. by apply elem_of_union_r.
        -- intros (Hid & e & [->|?]%elem_of_cons & He).
           ++ left. destruct Hev as (_ & _ & H0 & _).
              destruct He as (_ & _ & H1 & _). congruence.
           ++ destruct (decide (id = id0)) as [->|Hne]; [by left|].
              right. split; [|by exists e].
              intros [?%elem_of_singleton|?]%elem_of_union; done.
Qed.

(** Reconnecting does not start a callback twice.  Over any number of
    subscriptions to the stream, the containers the callback is started for
    are pairwise distinct; they are exactly the containers not handled
    before the loop that are announced by an event of a subscription the
    loop goes through, that is of one opened before the stop event was found
    set; and the set of handled containers grows by exactly them. *)
Theorem event_loop_reconnects handled subscriptions :
  let '(handled', started) := event_loop_runs handled subscriptions in
  NoDup started
  ∧ handled' = list_to_set started ∪ handled
  ∧ forall id,
      id ∈ started
      <-> (id ∉ handled)
          ∧ exists sub ev,
              sub ∈ served subscriptions
              ∧ ev ∈ sub_events sub ∧ announces ev id.
Proof.
  rewrite event_loop_runs_served.
  pose proof (event_loop_started handled
                (mjoin (sub_events <$> served subscriptions))) as H.
  destruct (event_loop handled (mjoin (sub_events <$> served subscriptions)))
    as [handled' started].
  destruct H as (Hnodup & Hset & Hiff). split; [done|]. split; [done|].
  intros id. rewrite Hiff. apply and_iff_compat_l. split.
  - intros (ev & (events & Hev & Hin)%list_elem_of_join & Hann).
    apply list_elem_of_fmap in Hin as (sub & -> & Hsub).
    by exists sub, ev.
  - intros (sub & ev & Hsub & Hev & Hann). exists ev. split; [|done].
    apply list_elem_of_join. exists (sub_events sub). split; [done|].
    apply list_elem_of_fmap. by exists sub.
Qed.

(** A container announced in two subscriptions is started once, and nothing
    is started once the stop event was found set: over the sample
    subscriptions the two containers are started once each and the third is
    not. *)
Lemma event_loop_reconnects_witness :
  (event_loop_runs ∅ sample_subscriptions).2 = ["c1"; "c2"]
  ∧ NoDup (event_loop_runs ∅ sample_subscriptions).2.
Proof.
  split; [reflexivity|].
  pose proof (event_loop_reconnects ∅ sample_subscriptions) as H.
  destruct (event_loop_runs ∅ sample_subscriptions) as [handled started].
  exact (proj1 H).
Defined.

(** * Further properties of the reconciler *)

(** ** Rule normalisation *)

Lemma append_empty_r s : s +:+ EmptyString = s.
Proof. induction s as [|a s IH]; [done|]. by rewrite append_cons, IH. Qed.

Lemma host_rule_first_host h :
  host_ok h -> first_host ("Host(`" +:+ h +:+ "`)") h.
Proof.
  intros [Hne Hchars]. apply first_host_here. split; [done|].
  split; [done|]. exists EmptyString. by rewrite append_empty_r.
Qed.

Lemma normalize_router_rule_first_host value h :
  host_ok h -> first_host (normalize_router_rule value h).1 h.
Proof.
  intros Hh. unfold normalize_router_rule.
  destruct (HOST_RULE_RE_search value) as [g|] eqn:E;
    [|by apply host_rule_first_host].
  destruct (String.eqb_spec g h) as [->|_]; [|by apply host_rule_first_host].
  by apply HOST_RULE_RE_search_spec.
Qed.

(** Normalising against a host that is not empty and has no backtick gives
    a rule whose first [Host(`...`)] names that host, and normalising the
    result again changes nothing and reports no change. *)
Theorem normalize_router_rule_idempotent value h :
  host_ok h ->
  first_host (normalize_router_rule value h).1 h
  ∧ normalize_router_rule (normalize_router_rule value h).1 h
    = ((normalize_router_rule value h).1, false).
Proof.
  intros Hh. pose proof (normalize_router_rule_first_host value h Hh) as H.
  split; [done|]. apply HOST_RULE_RE_search_spec in H.
  unfold normalize_router_rule at 1. rewrite H. by rewrite String.eqb_refl.
Qed.

(** The rewritten rule of the example is stable. *)
Lemma normalize_router_rule_idempotent_witness :
  normalize_router_rule
    (normalize_router_rule "Host(`a`) && PathPrefix(`/x`)" "b").1 "b"
  = ("Host(`b`)", false).
Proof.
  refine (proj2 (normalize_router_rule_idempotent
                   "Host(`a`) && PathPrefix(`/x`)" "b" _)).
  by split.
Defined.

Lemma normalize_unmodified value h :
  (normalize_router_rule value h).2 = false ->
  (normalize_router_rule value h).1 = value.
Proof.
  unfold normalize_router_rule.
  destruct (HOST_RULE_RE_search value) as [g|]; [|done].
  by destruct (String.eqb g h).
Qed.

(** ** [build_desired_labels] *)

(** The desired labels have the keys of the declared labels, in the same
    order; a label that is not a host rule (its key does not end in
    [.rule], or its value has no [Host(]) keeps its value; and when no
    change is reported, the desired labels are the declared ones. *)
Theorem build_desired_labels_frame A :
  (build_desired_labels A).1.*1 = (declared_labels A).*1
  ∧ (forall i key value,
       declared_labels A !! i = Some (key, value) ->
       is_host_rule key value = false ->
       (build_desired_labels A).1 !! i = Some (key, value))
  ∧ ((build_desired_labels A).2 = false ->
     (build_desired_labels A).1 = declared_labels A).
Proof.
  split; [apply build_desired_labels_keys|].
  unfold build_desired_labels, declared_labels.
  destruct (find_primary_domain _ _) as [d|]; [|done].
  destruct (PyStr.truthy (host d)); [|done]. cbn [fst snd]. split.
  - intros i key value Hi Hrule. rewrite list_lookup_fmap, Hi. cbn.
    by rewrite Hrule.
  - generalize (default [] (labelsSwarm A)) as labels.
    induction labels as [|[key value] labels IH]; [done|].
    cbn [existsb fmap list_fmap].
    intros [Hhead Htail]%orb_false_iff. rewrite IH by done. f_equal.
    destruct (is_host_rule key value); [|done].
    by rewrite normalize_unmodified.
Qed.

(** The second label of the sample application is not a rule: it is kept. *)
Lemma build_desired_labels_frame_witness :
  (build_desired_labels blog_application).1 !! 1
  = Some ("traefik.enable", "true").
Proof.
  by apply (proj1 (proj2 (build_desired_labels_frame blog_application))).
Defined.

(** When the primary domain has a host that is not empty and has no
    backtick, every host rule among the desired labels names that host in
    its first [Host(`...`)]. *)
Theorem build_desired_labels_effective A d h key value :
  primary_domain A = Some d ->
  host d = Some h ->
  host_ok h ->
  (key, value) ∈ (build_desired_labels A).1 ->
  is_host_rule key value = true ->
  first_host value h.
Proof.
  unfold primary_domain, declared_labels, build_desired_labels.
  intros -> Hhost Hh. rewrite Hhost. cbn [PyStr.truthy default].
  destruct Hh as [Hne Hchars]. apply is_empty_false in Hne as Hempty.
  rewrite Hempty. cbn [negb fst].
  intros ([k v] & Heq & _)%list_elem_of_fmap Hrule.
  destruct (is_host_rule k v) eqn:Ekv; injection Heq as -> ->.
  - by apply normalize_router_rule_first_host.
  - congruence.
Qed.

(** The rule of the sample application names its only domain. *)
Lemma build_desired_labels_effective_witness :
  first_host "Host(`new.example.com`)" "new.example.com".
Proof.
  apply (build_desired_labels_effective blog_application
           {| host := Some "new.example.com";
              domainType := Some "application";
              createdAt := Some "2"; uniqueConfigKey := None |}
           "new.example.com" "traefik.http.routers.blog.rule");
    try reflexivity.
  - by split.
  - apply list_elem_of_here.
Defined.

(** ** The choice of the primary domain *)

Section sort_by_key.
Context {A : Type} (key : A -> string).

Lemma ltb_leb s1 s2 : String.ltb s1 s2 = true -> String.leb s1 s2 = true.
Proof. unfold String.ltb, String.leb. by destruct (String.compare s1 s2). Qed.

Lemma ltb_false_leb s1 s2 :
  String.ltb s1 s2 = false -> String.leb s2 s1 = true.
Proof.
  unfold String.ltb, String.leb. rewrite (String.compare_antisym s1 s2).
  by destruct (String.compare s2 s1).
Qed.

Lemma leb_trans s1 s2 s3 :
  String.leb s1 s2 = true -> String.leb s2 s3 = true ->
  String.leb s1 s3 = true.
Proof.
  intros H1%Is_true_true H2%Is_true_true. apply Is_true_true.
  exact (transitivity (R:=String.le) H1 H2).
Qed.

Lemma leb_refl s : String.leb s s = true.
Proof.
  destruct (String.leb_total s s); done.
Qed.

Lemma elem_of_insert_sorted x y l :
  y ∈ insert_sorted key x l <-> y = x ∨ y ∈ l.
Proof.
  induction l as [|z l IH]; simpl.
  - rewrite list_elem_of_singleton, elem_of_nil. tauto.
  - destruct (String.ltb (key x) (key z)).
    + by rewrite elem_of_cons.
    + rewrite !elem_of_cons, IH. tauto.
Qed.

Lemma insert_sorted_sorted x l :
  StronglySorted (key_order key) l ->
  StronglySorted (key_order key) (insert_sorted key x l).
Proof.
  induction 1 as [|z l Hl IH Hz]; simpl.
  - by repeat constructor.
  - destruct (String.ltb (key x) (key z)) eqn:E.
    + apply ltb_leb in E. constructor; [by constructor|].
      constructor; [done|]. eapply Forall_impl; [exact Hz|].
      intros w Hw. by eapply leb_trans.
    + apply ltb_false_leb in E. constructor; [done|].
      apply Forall_forall. intros w [->|Hw]%elem_of_insert_sorted; [done|].
      by eapply Forall_forall in Hz.
Qed.

Lemma sort_by_key_spec l acc :
  StronglySorted (key_order key) acc ->
  StronglySorted (key_order key)
                 (foldl (fun acc x => insert_sorted key x acc) acc l)
  ∧ forall y, y ∈ foldl (fun acc x => insert_sorted key x acc) acc l
              <-> y ∈ acc ∨ y ∈ l.
Proof.
  revert acc. induction l as [|x l IH]; intros acc Hacc; simpl.
  - split; [done|]. intros y. rewrite elem_of_nil. tauto.
  - destruct (IH (insert_sorted key x acc)) as [Hs He];
      [by apply insert_sorted_sorted|].
    split; [done|]. intros y.
    rewrite He, elem_of_insert_sorted, elem_of_cons. tauto.
Qed.

Lemma last_is_greatest l d :
  StronglySorted (key_order key) l -> last l = Some d ->
  forall x, x ∈ l -> key_order key x d.
Proof.
  induction 1 as [|z l Hl IH Hz]; [done|].
  destruct l as [|z' l'].
  - intros [= <-] x ->%list_elem_of_singleton. apply leb_refl.
  - rewrite last_cons_cons. intros Hlast x [->|Hx]%elem_of_cons; [|by apply IH].
    eapply Forall_forall in Hz; [exact Hz|]. by apply last_Some_elem_of.
Qed.

(** The last element of the sorted list is an element of the list with a
    greatest key. *)
Lemma last_sort_by_key l d :
  last (sort_by_key key l) = Some d ->
  d ∈ l ∧ forall x, x ∈ l -> key_order key x d.
Proof.
  unfold sort_by_key.
  destruct (sort_by_key_spec l []) as [Hs He]; [constructor|].
  intros Hlast. split.
  - apply last_Some_elem_of, He in Hlast as [?%elem_of_nil|?]; done.
  - intros x Hx. eapply last_is_greatest; [done..|]. apply He. by right.
Qed.

Lemma last_sort_by_key_None l : last (sort_by_key key l) = None <-> l = [].
Proof.
  unfold sort_by_key.
  destruct (sort_by_key_spec l []) as [_ He]; [constructor|].
  rewrite last_None. split.
  - intros Hnil. destruct l as [|x l]; [done|].
    specialize (He x). rewrite Hnil in He.
    exfalso. eapply elem_of_nil, He. right. by left.
  - by intros ->.
Qed.

End sort_by_key.

(** When no declared domain has the host of the current rule, the primary
    domain is a domain of type [application] whose sort key ([createdAt],
    else [uniqueConfigKey], else empty) is greatest among the domains of
    that type; there is none exactly when no domain has that type. *)
Theorem primary_domain_fallback current_host domains :
  (forall h d, current_host = Some h -> d ∈ domains -> host d <> Some h) ->
  (find_primary_domain current_host domains = None
   <-> forall d, d ∈ domains -> ~ application_domain d)
  ∧ forall d,
      find_primary_domain current_host domains = Some d ->
      d ∈ domains
      ∧ application_domain d
      ∧ forall d', d' ∈ domains -> application_domain d' -> key_le d' d.
Proof.
  intros Hnone. unfold find_primary_domain.
  assert (match current_host with
          | Some h =>
              List.find (fun domain => bool_decide (host domain = Some h))
                        domains
          | None => None
          end = None) as ->.
  { destruct current_host as [h|]; [|done].
    destruct (List.find _ domains) as [d|] eqn:E; [|done].
    apply find_some in E as [Hin%list_elem_of_In Hd%bool_decide_eq_true].
    by destruct (Hnone h d). }
  split.
  - rewrite last_sort_by_key_None. split.
    + intros Hnil d Hd Happ.
      assert (d ∈ filter (fun domain => domainType domain = Some "application")
                         domains) as Hin by by apply list_elem_of_filter.
      rewrite Hnil in Hin. by apply elem_of_nil in Hin.
    + intros Hno.
      destruct (filter _ domains) as [|d l] eqn:E; [done|].
      assert (d ∈ filter (fun domain => domainType domain = Some "application")
                         domains) as [? ?]%list_elem_of_filter
        by (rewrite E; left).
      by destruct (Hno d).
  - intros d [[Happ Hin]%list_elem_of_filter Hmax]%last_sort_by_key.
    split; [done|]. split; [done|]. intros d' Hd' Happ'.
    apply Hmax. by apply list_elem_of_filter.
Qed.

(** Of two application domains the one created later is chosen, whatever
    the order in which they are declared. *)
Lemma primary_domain_fallback_witness :
  exists d,
    find_primary_domain None two_domains = Some d
    ∧ host d = Some "b.example.com"
    ∧ forall d', d' ∈ two_domains -> application_domain d' -> key_le d' d.
Proof.
  eexists. split; [reflexivity|]. split; [reflexivity|].
  refine (proj2 (proj2 (proj2 (primary_domain_fallback None two_domains _)
                          _ eq_refl))).
  by intros h d [=].
Defined.

(** A declared domain with the host of the current rule takes precedence:
    the primary domain is then the first domain with that host, whatever
    its type and its age. *)
Theorem primary_domain_by_host h domains d :
  d ∈ domains ->
  host d = Some h ->
  exists d',
    find_primary_domain (Some h) domains = Some d'
    ∧ d' ∈ domains
    ∧ host d' = Some h.
Proof.
  intros Hin Hhost. unfold find_primary_domain.
  destruct (List.find _ domains) as [d'|] eqn:E.
  - apply find_some in E as [Hin'%list_elem_of_In Hd%bool_decide_eq_true].
    by exists d'.
  - eapply find_none in E; [|by apply list_elem_of_In].
    by apply bool_decide_eq_false in E.
Qed.

(** The older domain is chosen when the current rule names its host. *)
Lemma primary_domain_by_host_witness :
  exists d',
    find_primary_domain (Some "a.example.com") two_domains = Some d'
    ∧ d' ∈ two_domains
    ∧ host d' = Some "a.example.com".
Proof.
  apply (primary_domain_by_host _ _
           {| host := Some "a.example.com"; domainType := Some "application";
              createdAt := Some "2023-01-01"; uniqueConfigKey := None |});
    [|done].
  right. left.
Defined.

(** ** [build_desired_networks] *)

Lemma has_target_app l1 l2 t :
  has_target (l1 ++ l2)%list t <-> has_target l1 t ∨ has_target l2 t.
Proof.
  unfold has_target. split.
  - intros (n & [?|?]%elem_of_app & ?); [left|right]; by exists n.
  - intros [(n & ? & ?)|(n & ? & ?)]; exists n;
      (split; [apply elem_of_app; auto|done]).
Qed.

Lemma has_target_kept (swarm : list network_attachment) t :
  has_target
    (omap (fun entry =>
             if PyStr.truthy (Target entry)
             then Some {| Target := Target entry; Aliases := Aliases entry |}
             else None) swarm) t
  <-> has_target swarm t.
Proof.
  unfold has_target. split.
  - intros (n & (e & He & Hn)%list_elem_of_omap & Ht & Hne).
    destruct (PyStr.truthy (Target e)); [|done]. injection Hn as <-.
    by exists e.
  - intros (e & He & Ht & Hne). exists e. split; [|done].
    apply list_elem_of_omap. exists e. split; [done|].
    rewrite Ht. apply is_empty_false in Hne.
    unfold PyStr.truthy. rewrite Hne. by destruct e; cbn in *; subst.
Qed.

(** The desired networks target the networks the application declares with
    a target that is not empty, and the ingress overlay when it was
    resolved; every entry of the list has a target. *)
Theorem desired_networks_targets self A :
  (forall t,
     has_target (build_desired_networks self A) t
     <-> has_target (default [] (networkSwarm A)) t
         ∨ (r_traefik_network_id self = Some t ∧ t <> EmptyString))
  ∧ Forall (fun n => PyStr.truthy (Target n) = true)
           (build_desired_networks self A).
Proof.
  unfold build_desired_networks.
  set (kept := omap _ (default [] (networkSwarm A))).
  assert (Forall (fun n => PyStr.truthy (Target n) = true) kept) as Hkept.
  { apply Forall_forall. intros n (e & _ & Hn)%list_elem_of_omap.
    destruct (PyStr.truthy (Target e)) eqn:E; [|done]. by injection Hn as <-. }
  assert (forall t, has_target kept t
                    <-> has_target (default [] (networkSwarm A)) t) as Hsame
    by apply has_target_kept.
  destruct (r_traefik_network_id self) as [id|].
  - destruct (PyStr.is_empty id) eqn:Eid; cbn [negb andb].
    + apply is_empty_true in Eid as ->. split; [|done].
      intros t. rewrite Hsame. split; [by left|].
      by intros [?|[[= <-] ?]].
    + apply is_empty_false in Eid.
      destruct (decide (id ∈ extract_targets kept)) as [Hin|Hnew].
      * rewrite bool_decide_eq_false_2 by by intros ?. split; [|done].
        intros t. rewrite <-Hsame. split; [by left|].
        intros [?|[[= <-] ?]]; [done|]. by apply extract_targets_spec.
      * rewrite bool_decide_eq_true_2 by done. split.
        -- intros t. rewrite has_target_app, Hsame. apply or_iff_compat_l.
           unfold has_target. split.
           ++ by intros (n & ->%list_elem_of_singleton & [= <-] & ?).
           ++ intros [[= <-] ?]. eexists. split; [apply list_elem_of_here|].
              done.
        -- apply Forall_app. split; [done|]. constructor; [|done].
           cbn. by apply negb_true_iff, is_empty_false.
  - split; [|done]. intros t. rewrite Hsame. split; [by left|].
    by intros [?|[? _]].
Qed.

(** ** More on [reconcile_application] *)

Lemma issued_call_match (r : result unit) call wb :
  issued_call
    (match r with
     | Ok _ => Updated call wb
     | Raise (APIError msg) => UpdateFailed call (APIError msg)
     | Raise e => UpdateRaised call e
     end) = Some call.
Proof. by destruct r as [|[]]. Qed.

(** The call that is issued, field by field. *)
Lemma issued_call_exact self api A S call :
  issued_call (reconcile_application self api A S) = Some call ->
  exists version,
    Version_Index S = Some version
    ∧ call
      = {| uc_id := sv_id S;
           uc_version := version;
           uc_name := sv_name S;
           uc_labels :=
             dict_update (current_labels S) (build_desired_labels A).1;
           uc_task_template :=
             {| st_ContainerSpec :=
                  Some {| csl_Labels :=
                            Some (dict_update (container_labels S)
                                              (build_desired_labels A).1);
                          csl_other :=
                            (template_rest (current_template S)).1 |};
                st_other := (template_rest (current_template S)).2 |};
           uc_networks :=
             match build_desired_networks self A with
             | [] => None
             | _ => Some (build_desired_networks self A)
             end |}.
Proof.
  unfold reconcile_application.
  fold (current_labels S) (current_networks S) (container_labels S).
  destruct (build_desired_labels A) as [desired changed]. cbn [fst].
  destruct desired as [|item desired]; [done|].
  destruct (negb _); [done|].
  destruct (Version_Index S) as [version|]; [|done].
  rewrite issued_call_match. intros [= <-]. by exists version.
Qed.

Lemma update_is_conservative_fields self api A S call :
  issued_call (reconcile_application self api A S) = Some call ->
  uc_id call = sv_id S ∧ uc_name call = sv_name S.
Proof. by intros (version & _ & ->)%issued_call_exact. Qed.

(** An update is conservative.  A label that the desired labels do not
    mention keeps its value, on the service and in the container spec; the
    other keys of the task template are passed on as they are; and the call
    names the service it was computed from. *)
Theorem update_is_conservative self api A S call :
  issued_call (reconcile_application self api A S) = Some call ->
  (forall key,
     as_map (build_desired_labels A).1 !! key = None ->
     uc_labels call !! key = current_labels S !! key
     ∧ template_labels (uc_task_template call) !! key
       = container_labels S !! key)
  ∧ template_rest (uc_task_template call) = template_rest (current_template S)
  ∧ uc_id call = sv_id S
  ∧ uc_name call = sv_name S.
Proof.
  intros (version & _ & ->)%issued_call_exact.
  cbn [uc_labels uc_task_template uc_id uc_name].
  split; [|done]. intros key Hkey. unfold template_labels. cbn.
  rewrite !dict_update_union. split; by apply lookup_union_r.
Qed.

(** The marker of the sample service is not among the desired labels: the
    update keeps it. *)
Lemma update_is_conservative_witness :
  exists call,
    issued_call (reconcile_application sample_reconciler accepting_engine
                                       blog_application blog_service)
    = Some call
    ∧ uc_labels call !! "autoswarm.managed" = Some "true".
Proof.
  eexists. split; [reflexivity|].
  destruct (update_is_conservative sample_reconciler accepting_engine
              blog_application blog_service _ eq_refl) as [Hkeep _].
  destruct (Hkeep "autoswarm.managed") as [-> _]; reflexivity.
Defined.

(** The control plane is written back only after an update that the engine
    accepted, and then exactly when a rule was rewritten; what is written
    is the normalised labels with the networks as the application declares
    them. *)
Theorem write_back_iff_rewritten self api A S call wb :
  reconcile_application self api A S = Updated call wb ->
  (is_Some wb <-> (build_desired_labels A).2 = true)
  ∧ forall w,
      wb = Some w ->
      wb_application_id w = applicationId A
      ∧ wb_labels w = (build_desired_labels A).1
      ∧ wb_networks w = networkSwarm A.
Proof.
  unfold reconcile_application.
  destruct (build_desired_labels A) as [desired changed]. cbn [fst snd].
  destruct desired as [|item desired]; [done|].
  destruct (negb _); [done|].
  destruct (Version_Index S) as [version|]; [|done].
  destruct (api _) as [|[]]; try done.
  intros [= _ <-]. destruct changed; split.
  - split; [done|]. by eexists.
  - by intros w [= <-].
  - split; [by intros [? ?]|done].
  - done.
Qed.

(** The rule of the sample application is rewritten: its labels are written
    back. *)
Lemma write_back_iff_rewritten_witness :
  exists call w,
    reconcile_application sample_reconciler accepting_engine
                          blog_application blog_service
    = Updated call (Some w)
    ∧ wb_labels w = (build_desired_labels blog_application).1.
Proof.
  eexists _, _. split; [reflexivity|].
  by apply (proj2 (write_back_iff_rewritten sample_reconciler accepting_engine
                     blog_application blog_service _ _ eq_refl)).
Defined.

(** ** [reconcile_all] *)

Lemma services_by_name_lookup services name S :
  services_by_name services !! name = Some S ->
  S ∈ services ∧ sv_name S = name.
Proof.
  unfold services_by_name.
  induction services as [|sv l IH] using rev_ind.
  - simpl. by rewrite lookup_empty.
  - rewrite foldl_app. simpl.
    destruct (decide (sv_name sv = name)) as [<-|Hne].
    + rewrite lookup_insert_eq. intros [= <-].
      split; [|done]. apply elem_of_app. right. apply list_elem_of_here.
    + rewrite lookup_insert_ne by done. intros [? ?]%IH.
      split; [|done]. apply elem_of_app. by left.
Qed.

Lemma reconcile_applications_calls self api cp services calls applications
    call :
  call ∈ omap issued_call
         (reconcile_applications self api cp services calls applications) ->
  exists A S calls',
    A ∈ applications
    ∧ services !! appName A = Some S
    ∧ appName A <> EmptyString
    ∧ issued_call (reconcile_application self (api calls') A S) = Some call.
Proof.
  revert calls. induction applications as [|A rest IH]; intros calls;
    cbn [reconcile_applications].
  - cbn. by intros ?%elem_of_nil.
  - assert (forall calls',
              call ∈ omap issued_call
                (reconcile_applications self api cp services calls' rest) ->
              exists A0 S0 calls'',
                A0 ∈ A :: rest
                ∧ services !! appName A0 = Some S0
                ∧ appName A0 <> EmptyString
                ∧ issued_call (reconcile_application self (api calls'') A0 S0)
                  = Some call) as Hrest.
    { intros calls' (A0 & S0 & calls'' & ? & ?)%IH.
      exists A0, S0, calls''. split; [by right|done]. }
    destruct (PyStr.is_empty (appName A)) eqn:Ename; [apply Hrest|].
    destruct (services !! appName A) as [S|] eqn:Eservice; [|apply Hrest].
    apply is_empty_false in Ename.
    set (o := reconcile_application self (api calls) A S).
    set (more := reconcile_applications self api cp services
                   (app calls (option_list (issued_call o))) rest).
    cbv zeta.
    assert (exists l, match o with
                      | UpdateRaised _ _ => [o]
                      | Updated _ (Some wb) =>
                          match cp wb with
                          | Some _ => [o]
                          | None => o :: more
                          end
                      | _ => o :: more
                      end = o :: l ∧ (l = [] ∨ l = more)) as (l & -> & Hl).
    { destruct o as [| | | | |? [wb|]]; eauto. destruct (cp wb); eauto. }
    cbn [omap list_omap]. intros Hin.
    assert (issued_call o = Some call ∨ call ∈ omap issued_call l) as [Hc|Hc].
    { destruct (issued_call o) as [c|]; [|by right].
      apply elem_of_cons in Hin as [->|?]; [by left|by right]. }
    + exists A, S, calls. split; [left|done].
    + destruct Hl as [-> | ->]; [by apply elem_of_nil in Hc|by eapply Hrest].
Qed.

(** In a cycle, every call to [update_service] is made for an application
    of the control plane and the listed service of the same name, with the
    identifier and the version index of that service; with the integration
    switched off there is no call at all. *)
Theorem reconcile_all_calls self api cp enabled applications services call :
  call ∈ omap issued_call
              (reconcile_all self api cp enabled applications services) ->
  enabled = true
  ∧ exists A S, A ∈ applications ∧ S ∈ services ∧ call_for A S call.
Proof.
  unfold reconcile_all. destruct enabled; [|by intros ?%elem_of_nil].
  cbn [negb].
  intros (A & S & calls & HA & HS & Hne & Hcall)%reconcile_applications_calls.
  split; [done|]. exists A, S.
  apply services_by_name_lookup in HS as [HS Hname].
  split; [done|]. split; [done|].
  pose proof (issued_call_fields _ _ _ _ _ Hcall) as (Hd & _ & Hv & _).
  apply update_is_conservative_fields in Hcall as [Hid Hn].
  by repeat split.
Qed.

(** The cycle over the sample application and service makes one call, for
    them. *)
Lemma reconcile_all_calls_witness :
  exists call A S,
    omap issued_call
      (reconcile_all sample_reconciler accepting_cycle (fun _ => None) true
                     [blog_application] [blog_service])
    = [call]
    ∧ A ∈ [blog_application] ∧ S ∈ [blog_service] ∧ call_for A S call.
Proof.
  eexists.
  destruct (reconcile_all_calls sample_reconciler accepting_cycle
              (fun _ => None) true
              [blog_application] [blog_service] _ (list_elem_of_here _ _))
    as (_ & A & S & H).
  by exists A, S.
Defined.

(** * Further properties of the control-plane client *)

(** ** The envelope *)

(** A response that is not an error status and whose object has no [error]
    member is unwrapped as [result.data.json]; a level that is missing
    stands for the empty object. *)
Theorem handle_response_unwraps status members :
  ~ (400 <= status < 600)%Z ->
  members_get "error" members = None ->
  (forall r d,
     members_get "result" members = Some (JObj r) ->
     members_get "data" r = Some (JObj d) ->
     _handle_response status (Some (JObj members))
     = Ok (default (JObj []) (members_get "json" d)))
  ∧ (members_get "result" members = None ->
     _handle_response status (Some (JObj members)) = Ok (JObj [])).
Proof.
  intros Hstatus Herror. unfold _handle_response, raise_for_status.
  assert ((400 <=? status) && (status <? 600) = false)%Z as ->.
  { apply andb_false_iff.
    destruct (Z.leb_spec 400 status); [|by left].
    destruct (Z.ltb_spec status 600); [lia|by right]. }
  cbn [mbind result_bind contains_error]. rewrite Herror.
  rewrite bool_decide_eq_false_2 by by intros [? ?].
  split.
  - intros r d Hr Hd. cbn. rewrite Hr. cbn. by rewrite Hd.
  - intros Hr. cbn. by rewrite Hr.
Qed.

(** A minimal envelope around a string. *)
Lemma handle_response_unwraps_witness :
  _handle_response 200
    (Some (JObj [("result", JObj [("data", JObj [("json", JStr "ok")])])]))
  = Ok (JStr "ok").
Proof.
  refine (proj1 (handle_response_unwraps 200
                   [("result", JObj [("data", JObj [("json", JStr "ok")])])]
                   _ eq_refl)
                [("data", JObj [("json", JStr "ok")])]
                [("json", JStr "ok")] eq_refl eq_refl).
  lia.
Defined.

(** ** The cache *)

(** A read on a client that is switched off, or within the TTL of the last
    refresh, returns the snapshot as it is, whatever the network would
    answer. *)
Theorem cache_served_without_network self now reply :
  is_enabled self = false
  ∨ (now - _cache_timestamp self < APPLICATION_CACHE_TTL)%Z ->
  _refresh_cache self false now reply = (self, None)
  ∧ list_applications self now reply = (Ok (_applications self), self).
Proof.
  intros H.
  assert (_refresh_cache self false now reply = (self, None)) as Hsame.
  { unfold _refresh_cache. destruct (is_enabled self); [|done].
    destruct H as [?|H]; [done|]. apply Z.ltb_lt in H. by rewrite H. }
  split; [done|]. unfold list_applications. by rewrite Hsame.
Qed.

(** Twenty seconds after its last refresh the sample client does not ask. *)
Lemma cache_served_without_network_witness :
  list_applications sample_client 120 (TransportError (RuntimeError "down"))
  = (Ok [JObj [("appName", JStr "blog")]], sample_client).
Proof.
  apply (cache_served_without_network sample_client 120). right.
  unfold APPLICATION_CACHE_TTL. cbn. lia.
Defined.

Lemma mapM_result {A B} (f : A -> result B) l k :
  Forall2 (fun x y => f x = Ok y) l k -> mapM f l = Ok k.
Proof.
  induction 1 as [|x y l k Hxy _ IH]; [done|].
  cbn [mapM]. rewrite Hxy. cbn. rewrite IH. done.
Qed.

Lemma json_get_list_member k v j :
  has_member k v j -> json_get_list k j = Ok v.
Proof. intros (members & -> & H). cbn. by rewrite H. Qed.

Lemma project_applications environments project :
  project_of environments project ->
  (envs ← json_get_list "environments" project;
   environments ← json_iter envs;
   per_env ← mapM (fun environment =>
                     apps ← json_get_list "applications" environment;
                     json_iter apps) environments;
   Ok (concat per_env))
  = Ok (concat environments).
Proof.
  intros (environment_jsons & Hmember%json_get_list_member & Henvs).
  rewrite Hmember. cbn.
  rewrite (mapM_result _ environment_jsons environments); [done|].
  apply Forall2_flip. eapply Forall2_impl; [exact Henvs|].
  intros apps env Henv%json_get_list_member. by rewrite Henv.
Qed.

(** The catalogue is flattened in order: the applications of the first
    environment of the first project come first. *)
Lemma flatten_applications_catalogue projects project_jsons :
  Forall2 project_of projects project_jsons ->
  flatten_applications (JArr project_jsons)
  = Ok (catalogue_applications projects).
Proof.
  intros H. unfold flatten_applications.
  assert ((if json_truthy (JArr project_jsons)
           then json_iter (JArr project_jsons) else Ok [])
          = Ok project_jsons) as -> by by destruct project_jsons.
  cbn [mbind result_bind]. unfold catalogue_applications.
  rewrite (mapM_result _ project_jsons
             ((fun environments => concat environments) <$> projects));
    [done|].
  apply Forall2_flip, Forall2_fmap_l. eapply Forall2_impl; [exact H|].
  intros envs project Hproject. by apply project_applications.
Qed.

Lemma refresh_of_catalogue self force now reply projects :
  refresh_due self force now ->
  answers_catalogue reply projects ->
  _refresh_cache self force now reply
  = (refreshed self (catalogue_applications projects) now, None).
Proof.
  intros [Henabled Hdue] (status & body & jsons & -> & Hbody & Hprojects).
  unfold _refresh_cache. rewrite Henabled. cbn [negb].
  assert (negb force
          && (now - _cache_timestamp self <? APPLICATION_CACHE_TTL)%Z
          = false) as ->.
  { destruct Hdue as [->|Hold]; [done|].
    apply andb_false_iff. right. by apply Z.ltb_ge. }
  rewrite Hbody. by rewrite (flatten_applications_catalogue projects).
Qed.

(** A refresh that is due and whose answer carries a catalogue replaces the
    snapshot by the applications of the catalogue, project by project and
    environment by environment, and sets the time stamp to the time of the
    refresh. *)
Theorem refresh_replaces_snapshot self force now reply projects :
  refresh_due self force now ->
  answers_catalogue reply projects ->
  _refresh_cache self force now reply
  = (refreshed self (catalogue_applications projects) now, None).
Proof.
  intros [Henabled Hdue] (status & body & jsons & -> & Hbody & Hprojects).
  unfold _refresh_cache. rewrite Henabled. cbn [negb].
  destruct Hdue as [-> | Hold].
  - cbn [negb andb]. rewrite Hbody.
    by rewrite (flatten_applications_catalogue projects).
  - apply Z.ltb_ge in Hold. rewrite Hold, andb_false_r, Hbody.
    by rewrite (flatten_applications_catalogue projects).
Qed.

(** The sample client, stale at second 1000, takes the new catalogue. *)
Lemma refresh_replaces_snapshot_witness :
  _refresh_cache sample_client false 1000 shop_reply
  = (refreshed sample_client [JObj [("appName", JStr "shop")]] 1000, None).
Proof.
  apply (refresh_replaces_snapshot sample_client false 1000 shop_reply
           [[[JObj [("appName", JStr "shop")]]]]).
  - split; [done|]. right. unfold APPLICATION_CACHE_TTL. cbn. lia.
  - eexists _, _, _. split; [reflexivity|]. split; [reflexivity|].
    repeat constructor. eexists. split; [by eexists|].
    repeat constructor. by eexists.
Defined.

(** ** [find_application_by_appname] *)

Lemma appname_is_true app_name application :
  appname_is app_name application = Ok true
  <-> has_member "appName" (JStr app_name) application.
Proof.
  unfold appname_is, has_member. destruct application as [| | | | |members];
    try (split; [done|by intros (? & [=] & _)]).
  destruct (members_get "appName" members) as [v|] eqn:E.
  - split.
    + intros [= Hv]. exists members. split; [done|].
      destruct v; try done. cbn in Hv. by apply String.eqb_eq in Hv as ->.
    + intros (? & [= <-] & Hm). rewrite E in Hm. injection Hm as ->.
      cbn. by rewrite String.eqb_refl.
  - split; [done|]. intros (? & [= <-] & Hm). congruence.
Qed.

Lemma find_in_snapshot_spec app_name applications :
  (forall application,
     find_in_snapshot app_name applications = Ok (Some application) ->
     application ∈ applications
     ∧ has_member "appName" (JStr app_name) application)
  ∧ (find_in_snapshot app_name applications = Ok None ->
     forall application,
       application ∈ applications ->
       ~ has_member "appName" (JStr app_name) application).
Proof.
  induction applications as [|a l [IHfound IHnone]]; cbn [find_in_snapshot].
  - split; [done|]. by intros _ ? ?%elem_of_nil.
  - destruct (appname_is app_name a) as [[]|] eqn:E.
    + split; [|done]. intros ? [= <-]. split; [left|].
      by apply appname_is_true.
    + split.
      * intros application [? ?]%IHfound. by split; [right|].
      * intros Hnone application [->|?]%elem_of_cons; [|by apply IHnone].
        intros H%appname_is_true. congruence.
    + done.
Qed.

(** A lookup by name answers with an application of the snapshot whose
    [appName] is the name asked for; when it answers with nothing, no
    application of the snapshot has that name; and a client that is switched
    off always answers with nothing, without a refresh. *)
Theorem find_application_by_appname_spec self app_name now reply :
  let '(found, self') := find_application_by_appname self app_name now reply in
  (is_enabled self = false -> found = Ok None ∧ self' = self)
  ∧ (forall application,
       found = Ok (Some application) ->
       application ∈ _applications self'
       ∧ has_member "appName" (JStr app_name) application)
  ∧ (is_enabled self = true ->
     found = Ok None ->
     forall application,
       application ∈ _applications self' ->
       ~ has_member "appName" (JStr app_name) application).
Proof.
  unfold find_application_by_appname.
  destruct (is_enabled self); cbn [negb]; [|by repeat split].
  destruct (_refresh_cache self false now reply) as [self' [e|]].
  - by repeat split.
  - destruct (find_in_snapshot_spec app_name (_applications self'))
      as [Hfound Hnone].
    split; [done|]. split; [done|]. intros _. exact Hnone.
Qed.

(** The sample client, asked within its TTL, finds its cached application. *)
Lemma find_application_by_appname_spec_witness :
  JObj [("appName", JStr "blog")] ∈ _applications sample_client
  ∧ has_member "appName" (JStr "blog") (JObj [("appName", JStr "blog")]).
Proof.
  pose proof (find_application_by_appname_spec sample_client "blog" 120
                (TransportError (RuntimeError "down"))) as H.
  cbn in H. by apply (proj1 (proj2 H)).
Defined.

(** ** [update_application] and [update_domain] *)

Lemma failed_post_raises reply :
  refresh_fails reply ->
  exists e,
    match reply with
    | TransportError e => Raise e
    | Response status body => _handle_response status body
    end = Raise e.
Proof.
  intros H. destruct reply as [e|status body]; [by eexists|].
  by apply failed_response_raises.
Qed.

(** A write whose request fails (the transport raises, the status is an
    error status, the body does not parse, or it has an [error] member)
    leaves the snapshot and its time stamp as they were: it does not
    refresh, whatever the catalogue request would answer.  This holds for
    applications and for domains. *)
Theorem failed_write_keeps_cache self now post_reply get_reply :
  refresh_fails post_reply ->
  (forall application_id labels networks,
     (update_application self application_id labels networks now
                         post_reply get_reply).1.2 = self)
  ∧ (forall domain_id payload,
       (update_domain self domain_id payload now post_reply get_reply).1.2
       = self).
Proof.
  intros [e He]%failed_post_raises.
  assert (forall request,
            (post_and_refresh self request now post_reply get_reply).1.2
            = self) as H.
  { intros request. unfold post_and_refresh.
    destruct (is_enabled self); [|done]. cbn [negb]. by rewrite He. }
  split; intros; apply H.
Qed.

(** A write answered by status 500 leaves the sample client as it was. *)
Lemma failed_write_keeps_cache_witness :
  (update_application sample_client "app-1" None None 1000
     (Response 500 None) shop_reply).1.2
  = sample_client.
Proof.
  apply (proj1 (failed_write_keeps_cache sample_client 1000
                  (Response 500 None) shop_reply
                  (fails_parse 500))).
Defined.

(** A write that succeeds is followed by a forced refresh: when the
    catalogue request answers, the snapshot is replaced and stamped with
    the time of the write even if it was still within its TTL. *)
Theorem write_refreshes_cache self application_id labels networks now
    status body payload get_reply projects :
  is_enabled self = true ->
  _handle_response status body = Ok payload ->
  answers_catalogue get_reply projects ->
  update_application self application_id labels networks now
                     (Response status body) get_reply
  = (Some (ApplicationUpdate application_id labels networks),
     refreshed self (catalogue_applications projects) now, None).
Proof.
  intros Henabled Hpost Hget. unfold update_application, post_and_refresh.
  rewrite Henabled, Hpost. cbn [negb].
  rewrite (refresh_of_catalogue self true now get_reply projects);
    [done| |done].
  split; [done|by left].
Qed.

(** The sample client, refreshed at second 100, writes at second 110. *)
Lemma write_refreshes_cache_witness :
  update_application sample_client "app-1" (Some [("a", "b")]) None 110
    (Response 200 (Some (JObj []))) shop_reply
  = (Some (ApplicationUpdate "app-1" (Some [("a", "b")]) None),
     refreshed sample_client [JObj [("appName", JStr "shop")]] 110, None).
Proof.
  apply (write_refreshes_cache sample_client "app-1" _ _ 110 200 _ (JObj [])
           shop_reply [[[JObj [("appName", JStr "shop")]]]]);
    [reflexivity..|].
  eexists _, _, _. split; [reflexivity|]. split; [reflexivity|].
  repeat constructor. eexists. split; [by eexists|].
  repeat constructor. by eexists.
Defined.
